(** * Voter face-recognition backend: the Express handlers of [backend/server.js]

    The four route handlers ([/api/register], [/api/authenticate],
    [/api/dashboard/stats], [/api/dashboard/logs]) are embedded as programs of
    a small free monad [Async]: every [await] of the source is one [Await]
    node, a rejected promise is a [Throw], and the [try { } catch] around each
    handler body is [try_catch].  The Firebase Realtime Database and the face
    service are interpreted by [perform] over an explicit [World].

    JavaScript numbers that carry confidences are modelled by rationals (a
    finite double stands for the value of its shortest decimal literal, which
    preserves [<] and [>=]); millisecond timestamps are integers. *)

From Stdlib Require Import ZArith QArith List String Bool Lia.
From Stdlib Require Import Sorting.Sorted Structures.OrderedTypeEx.
Import ListNotations.

Local Open Scope string_scope.
Local Open Scope list_scope.

(** ** Data model *)

Definition Encoding : Type := list Q.

(** A child of [/voters], as written by [voterData] in [/api/register]. *)
Module Voter.
Record t : Type := mk {
  id : string;
  name : string;
  email : string;
  registrationDate : string;
  faceEncoding : Encoding;
  status : string;
  createdAt : Z
}.
End Voter.

(** A child of [/registration_logs]. *)
Module RegLog.
Record t : Type := mk {
  voterId : string;
  voterName : string;
  timestamp : Z;
  action : string
}.
End RegLog.

(** A child of [/authentication_logs]; [null] is [None]. *)
Module AuthLog.
Record t : Type := mk {
  timestamp : Z;
  voterId : option string;
  voterName : option string;
  result : string;
  confidence : Q;
  ipAddress : string
}.
End AuthLog.

(** A JavaScript [Error]; only its [code] is inspected by the handlers. *)
Record Error : Type := mkError {
  code : option string;
  message : string
}.

(** The state of a promise once it is settled. *)
Inductive Settled (X : Type) : Type :=
| Fulfilled (x : X)
| Rejected (e : Error).
Arguments Fulfilled {X} x.
Arguments Rejected {X} e.

(** [response.data] of [POST /extract-features]. *)
Record ExtractResponse : Type := mkExtract {
  extract_success : bool;
  extract_faceEncoding : Encoding;
  extract_error : string
}.

(** [response.data] of [POST /compare-faces]. *)
Record CompareResponse : Type := mkCompare {
  compare_success : bool;
  compare_confidence : Q
}.

(** The validated [value] of [voterRegistrationSchema]. *)
Record Registration : Type := mkRegistration {
  reg_name : string;
  reg_email : string;
  reg_faceData : string
}.

(** [req.body] before validation; an absent property is [None]. *)
Record RequestBody : Type := mkBody {
  body_name : option string;
  body_email : option string;
  body_faceData : option string
}.

(** What the transport layer hands to a handler: the body, [req.ip], and for
    the logs route the number [parseInt(req.query.limit)], [None] being
    [NaN]. *)
Record Request : Type := mkRequest {
  req_body : RequestBody;
  req_ip : string;
  req_limit : option Z
}.

(** ** The HTTP response *)

Record VoterView : Type := mkVoterView {
  view_id : string;
  view_name : string;
  view_email : string
}.

(** One element of [logsArray]: the push key, the stored fields, and the
    instant that [new Date(log.timestamp).toISOString()] renders. *)
Record LogView : Type := mkLogView {
  log_id : string;
  log_entry : AuthLog.t;
  log_timestamp : Z
}.

Record StatsView : Type := mkStats {
  totalRegistered : nat;
  activeVoters : nat;
  successfulAuthsToday : nat;
  (* [successfulAttempts / totalAttempts * 100] before [toFixed(1)] *)
  accuracy : Q
}.

Inductive Body : Type :=
| ErrorBody (error : string)
| RegisteredBody (message : string) (voterId : string)
| AuthenticatedBody (message : string) (voter : VoterView) (confidence : Q)
| AuthenticationFailedBody (message : string) (confidence : Q)
| StatsBody (stats : StatsView)
| LogsBody (logs : list LogView).

Record Response : Type := mkResponse {
  status : nat;
  body : Body
}.

(** ** Asynchronous programs *)

(** Database references the handlers touch. *)
Inductive DbRef : Type :=
| RefVoters
| RefVoter (voterId : string)
| RefRegistrationLogs
| RefAuthenticationLogs.

(** One constructor per awaited call of the source.  A record written with
    [admin.database.ServerValue.TIMESTAMP] is a function of the instant the
    server fills in. *)
Inductive Op : Type -> Type :=
| VotersByEmailOnce (email : string) : Op (list (string * Voter.t))
| VotersOnce : Op (list (string * Voter.t))
| VoterSet (voterId : string) (voterData : Z -> Voter.t) : Op unit
| RegistrationLogsPush (entry : Z -> RegLog.t) : Op unit
| AuthenticationLogsPush (entry : Z -> AuthLog.t) : Op unit
| AuthenticationLogsLimitToLast (limit : Z) : Op (list (string * AuthLog.t))
| AuthenticationLogsByTimestampLimitToLast (limit : Z)
    : Op (list (string * AuthLog.t))
| ExtractFeatures (imageData : string) : Op ExtractResponse
| CompareFaces (faceEncoding1 faceEncoding2 : Encoding) : Op CompareResponse.

Inductive Async (R : Type) : Type :=
| Return (r : R)
| Throw (e : Error)
| Await {X : Type} (op : Op X) (k : Settled X -> Async R).
Arguments Return {R} r.
Arguments Throw {R} e.
Arguments Await {R X} op k.

(** [const x = await op; k x]: a rejection is rethrown at the [await]. *)
Definition await {R X : Type} (op : Op X) (k : X -> Async R) : Async R :=
  Await op (fun s => match s with
                     | Fulfilled x => k x
                     | Rejected e => Throw e
                     end).

Fixpoint bind {A B : Type} (p : Async A) (f : A -> Async B) : Async B :=
  match p with
  | Return a => f a
  | Throw e => Throw e
  | Await op k => Await op (fun s => bind (k s) f)
  end.

(** [try { p } catch (error) { h error }]. *)
Fixpoint try_catch {R : Type} (p : Async R) (h : Error -> Async R) : Async R :=
  match p with
  | Return r => Return r
  | Throw e => h e
  | Await op k => Await op (fun s => try_catch (k s) h)
  end.

Declare Scope async_scope.
Delimit Scope async_scope with async.
Notation "x <- 'AWAIT' op ;; k" := (await op (fun x => k))
  (at level 61, op at next level, right associativity) : async_scope.
Notation "x <- p ;; k" := (bind p (fun x => k))
  (at level 61, p at next level, right associativity) : async_scope.
Local Open Scope async_scope.

(** ** The world the handlers run in *)

(** The database: children of each node in Firebase child order, the number
    of push ids handed out so far, and the server clock. *)
Record World : Type := mkWorld {
  voters : list (string * Voter.t);
  registration_logs : list (string * RegLog.t);
  authentication_logs : list (string * AuthLog.t);
  pushes : nat;
  server_time : Z
}.

(** The collaborators: the Joi schemas (the message of the first violation,
    or the validated value), the face service behind axios, the push-id
    generator, and which database references currently reject. *)
Record Env : Type := mkEnv {
  validate_registration : RequestBody -> string + Registration;
  validate_authentication : RequestBody -> string + string;
  extract_features : string -> Settled ExtractResponse;
  compare_faces : Encoding -> Encoding -> Settled CompareResponse;
  push_id : nat -> string;
  db_rejects : DbRef -> option Error
}.

(** [ref.set(v)] on a child of a node whose children are kept in key order:
    an existing key is overwritten, a new one takes its place in the order. *)
Fixpoint set_child {A : Type} (key : string) (v : A)
  (children : list (string * A)) : list (string * A) :=
  match children with
  | [] => [(key, v)]
  | (k, x) :: rest =>
      match String.compare key k with
      | Eq => (key, v) :: rest
      | Lt => (key, v) :: (k, x) :: rest
      | Gt => (k, x) :: set_child key v rest
      end
  end.

(** The last [n] elements of a list. *)
Definition lastn {A : Type} (n : nat) (l : list A) : list A :=
  skipn (List.length l - n) l.

(** Insertion by a Z-valued rank: [x] goes before the first element whose
    rank is not smaller. *)
Fixpoint insert_by {A : Type} (rank : A -> Z) (x : A) (l : list A) : list A :=
  match l with
  | [] => [x]
  | y :: rest =>
      if (rank x <=? rank y)%Z then x :: y :: rest
      else y :: insert_by rank x rest
  end.

(** A stable sort: elements of equal rank keep their order. *)
Definition sort_by {A : Type} (rank : A -> Z) (l : list A) : list A :=
  fold_right (insert_by rank) [] l.

(** Children tagged with their position in key order. *)
Fixpoint number_from {A : Type} (i : Z) (l : list A) : list (Z * A) :=
  match l with
  | [] => []
  | x :: rest => (i, x) :: number_from (i + 1)%Z rest
  end.

(** [orderByChild('timestamp').limitToLast(n)] followed by [snapshot.val()]:
    the [n] children greatest by (timestamp, key) are selected, and [val()]
    lists them as an object, that is in key order again. *)
Definition by_timestamp_limit_to_last (n : nat)
  (children : list (string * AuthLog.t)) : list (string * AuthLog.t) :=
  let ranked :=
    sort_by (fun c => AuthLog.timestamp (snd (snd c))) (number_from 0 children) in
  map snd (sort_by fst (lastn n ranked)).

(** The SDK refuses a limit that is not a positive integer. *)
Definition limit_error : Error :=
  mkError None "Query.limitToLast: First argument must be a positive integer.".

Definition with_ref {X : Type} (env : Env) (r : DbRef) (w : World)
  (ok : Settled X * World) : Settled X * World :=
  match db_rejects env r with
  | Some e => (Rejected e, w)
  | None => ok
  end.

Definition perform (env : Env) {X : Type} (op : Op X) (w : World)
  : Settled X * World :=
  match op in Op T return Settled T * World with
  | VotersByEmailOnce email =>
      with_ref env RefVoters w
        (Fulfilled
           (filter (fun c => Voter.email (snd c) =? email) (voters w)), w)
  | VotersOnce =>
      with_ref env RefVoters w (Fulfilled (voters w), w)
  | VoterSet voterId voterData =>
      with_ref env (RefVoter voterId) w
        (Fulfilled tt,
         mkWorld (set_child voterId (voterData (server_time w)) (voters w))
                 (registration_logs w) (authentication_logs w)
                 (pushes w) (server_time w))
  | RegistrationLogsPush entry =>
      with_ref env RefRegistrationLogs w
        (Fulfilled tt,
         mkWorld (voters w)
                 (registration_logs w
                    ++ [(push_id env (pushes w), entry (server_time w))])
                 (authentication_logs w)
                 (S (pushes w)) (server_time w))
  | AuthenticationLogsPush entry =>
      with_ref env RefAuthenticationLogs w
        (Fulfilled tt,
         mkWorld (voters w) (registration_logs w)
                 (authentication_logs w
                    ++ [(push_id env (pushes w), entry (server_time w))])
                 (S (pushes w)) (server_time w))
  | AuthenticationLogsLimitToLast limit =>
      if (limit <=? 0)%Z then (Rejected limit_error, w)
      else with_ref env RefAuthenticationLogs w
             (Fulfilled (lastn (Z.to_nat limit) (authentication_logs w)), w)
  | AuthenticationLogsByTimestampLimitToLast limit =>
      if (limit <=? 0)%Z then (Rejected limit_error, w)
      else with_ref env RefAuthenticationLogs w
             (Fulfilled
                (by_timestamp_limit_to_last (Z.to_nat limit)
                   (authentication_logs w)), w)
  | ExtractFeatures imageData => (extract_features env imageData, w)
  | CompareFaces e1 e2 => (compare_faces env e1 e2, w)
  end.

(** A performed call, for traces. *)
Inductive Call : Type :=
| Called {X : Type} (op : Op X).

Inductive Outcome (R : Type) : Type :=
| Returned (r : R)
| Uncaught (e : Error).
Arguments Returned {R} r.
Arguments Uncaught {R} e.

Record Run (R : Type) : Type := mkRun {
  outcome : Outcome R;
  final : World;
  trace : list Call
}.
Arguments mkRun {R} outcome final trace.
Arguments outcome {R} r.
Arguments final {R} r.
Arguments trace {R} r.

(** A handler that runs to completion with no other request interleaved. *)
Fixpoint run {R : Type} (env : Env) (p : Async R) (w : World) : Run R :=
  match p with
  | Return r => mkRun (Returned r) w []
  | Throw e => mkRun (Uncaught e) w []
  | Await op k =>
      let '(s, w') := perform env op w in
      let r := run env (k s) w' in
      mkRun (outcome r) (final r) (Called op :: trace r)
  end.

(** The encodings that were sent to [/compare-faces], in call order. *)
Fixpoint compared (t : list Call) : list (Encoding * Encoding) :=
  match t with
  | [] => []
  | Called op :: rest =>
      match op with
      | CompareFaces e1 e2 => (e1, e2) :: compared rest
      | _ => compared rest
      end
  end.

(** ** The handlers *)

Definition Qgtb (a b : Q) : bool := negb (Qle_bool a b).
Definition Qgeb (a b : Q) : bool := Qle_bool b a.

Definition CONFIDENCE_THRESHOLD : Q := 85 # 100.

Definition respond (code : nat) (b : Body) : Async Response :=
  Return (mkResponse code b).

Definition has_code (error : Error) (c : string) : bool :=
  match code error with
  | Some c' => c' =? c
  | None => false
  end.

(** The [catch] block shared by [/api/register] and [/api/authenticate]. *)
Definition service_failure (error : Error) : Response :=
  if has_code error "ECONNREFUSED"
  then mkResponse 503 (ErrorBody "Face recognition service unavailable")
  else mkResponse 500 (ErrorBody "Internal server error").

Definition service_catch (error : Error) : Async Response :=
  Return (service_failure error).

(** [snapshot.exists()]. *)
Definition snapshot_exists {A : Type} (children : list A) : bool :=
  match children with
  | [] => false
  | _ :: _ => true
  end.

(** [app.post('/api/register')].  [voterId] is the value [uuidv4()] yields
    for this call and [registrationDate] that of [new Date().toISOString()]. *)
Definition register (env : Env) (req : Request)
  (voterId registrationDate : string) : Async Response :=
  try_catch
    match validate_registration env (req_body req) with
    | inl details => respond 400 (ErrorBody details)
    | inr value =>
        existingVoter <- AWAIT VotersByEmailOnce (reg_email value) ;;
        if snapshot_exists existingVoter
        then respond 409 (ErrorBody "Email already registered")
        else
          faceResponse <- AWAIT ExtractFeatures (reg_faceData value) ;;
          if negb (extract_success faceResponse)
          then respond 400
                 (ErrorBody ("Face detection failed: "
                             ++ extract_error faceResponse))
          else
            saved <- AWAIT VoterSet voterId
                       (fun TIMESTAMP =>
                          Voter.mk voterId (reg_name value) (reg_email value)
                            registrationDate
                            (extract_faceEncoding faceResponse)
                            "active" TIMESTAMP) ;;
            logged <- AWAIT RegistrationLogsPush
                        (fun TIMESTAMP =>
                           RegLog.mk voterId (reg_name value) TIMESTAMP
                             "registered") ;;
            respond 201
              (RegisteredBody "Voter registered successfully" voterId)
    end
    service_catch.

(** The [for ... of Object.entries(voters)] loop.  [{ id: voterId, ...voter }]
    keeps the stored record's own fields, so [bestMatch] is the record. *)
Fixpoint scan (probe : Encoding) (entries : list (string * Voter.t))
  (bestMatch : option Voter.t) (bestConfidence : Q)
  : Async (option Voter.t * Q) :=
  match entries with
  | [] => Return (bestMatch, bestConfidence)
  | (voterId, voter) :: rest =>
      if negb (Voter.status voter =? "active")
      then scan probe rest bestMatch bestConfidence
      else
        compareResponse <- AWAIT CompareFaces probe (Voter.faceEncoding voter) ;;
        if compare_success compareResponse
           && Qgtb (compare_confidence compareResponse) bestConfidence
        then scan probe rest (Some voter) (compare_confidence compareResponse)
        else scan probe rest bestMatch bestConfidence
  end.

(** Reading a property of [null] throws. *)
Definition null_dereference : Error :=
  mkError None "TypeError: Cannot read properties of null".

(** [app.post('/api/authenticate')]. *)
Definition authenticate (env : Env) (req : Request) : Async Response :=
  try_catch
    match validate_authentication env (req_body req) with
    | inl details => respond 400 (ErrorBody details)
    | inr faceData =>
        faceResponse <- AWAIT ExtractFeatures faceData ;;
        if negb (extract_success faceResponse)
        then respond 400
               (ErrorBody ("Face detection failed: "
                           ++ extract_error faceResponse))
        else
          votersSnapshot <- AWAIT VotersOnce ;;
          best <- scan (extract_faceEncoding faceResponse) votersSnapshot
                    None 0 ;;
          let '(bestMatch, bestConfidence) := best in
          let authResult := Qgeb bestConfidence CONFIDENCE_THRESHOLD in
          logged <- AWAIT AuthenticationLogsPush
                      (fun TIMESTAMP =>
                         AuthLog.mk TIMESTAMP
                           (option_map Voter.id bestMatch)
                           (option_map Voter.name bestMatch)
                           (if authResult then "success" else "failed")
                           bestConfidence
                           (req_ip req)) ;;
          if authResult
          then match bestMatch with
               | Some m =>
                   respond 200
                     (AuthenticatedBody "Authentication successful"
                        (mkVoterView (Voter.id m) (Voter.name m)
                           (Voter.email m))
                        bestConfidence)
               | None => Throw null_dereference
               end
          else respond 401
                 (AuthenticationFailedBody "Authentication failed"
                    bestConfidence)
    end
    service_catch.

Definition MS_PER_MINUTE : Z := 60000.
Definition MS_PER_DAY : Z := 86400000.

(** [today.setHours(0, 0, 0, 0); today.getTime()] for a clock reading [now]
    in a zone whose [getTimezoneOffset()] is [tzOffset] minutes all day. *)
Definition start_of_local_day (tzOffset now : Z) : Z :=
  let localTime := (now - tzOffset * MS_PER_MINUTE)%Z in
  (localTime / MS_PER_DAY * MS_PER_DAY + tzOffset * MS_PER_MINUTE)%Z.

Definition is_success (log : AuthLog.t) : bool :=
  AuthLog.result log =? "success".

Definition is_active (v : Voter.t) : bool :=
  Voter.status v =? "active".

(** The filter of [todayAuths]. *)
Definition counted_today (todayTimestamp : Z) (log : AuthLog.t) : bool :=
  (AuthLog.timestamp log >? todayTimestamp)%Z && is_success log.

Definition number (n : nat) : Q := inject_Z (Z.of_nat n).

(** [app.get('/api/dashboard/stats')], with [now] the reading of
    [new Date()] and [tzOffset] the zone of the process. *)
Definition stats (tzOffset now : Z) : Async Response :=
  try_catch
    (votersSnapshot <- AWAIT VotersOnce ;;
     authLogsSnapshot <- AWAIT AuthenticationLogsLimitToLast 100 ;;
     let voters := map snd votersSnapshot in
     let authLogs := map snd authLogsSnapshot in
     let totalRegistered := List.length votersSnapshot in
     let activeVoters := List.length (filter is_active voters) in
     let todayTimestamp := start_of_local_day tzOffset now in
     let todayAuths := filter (counted_today todayTimestamp) authLogs in
     let successfulAuthsToday := List.length todayAuths in
     let totalAttempts := List.length authLogsSnapshot in
     let successfulAttempts := List.length (filter is_success authLogs) in
     let accuracy :=
       if (0 <? totalAttempts)%nat
       then (number successfulAttempts / number totalAttempts * 100)%Q
       else 0%Q in
     respond 200
       (StatsBody
          (mkStats totalRegistered activeVoters successfulAuthsToday accuracy)))
    (fun error =>
       respond 500 (ErrorBody "Failed to fetch dashboard statistics")).

(** [Math.min(parseInt(req.query.limit) || 10, 50)]: [NaN] and [0] are falsy. *)
Definition requested_limit (parsed : option Z) : Z :=
  Z.min
    match parsed with
    | Some n => if (n =? 0)%Z then 10%Z else n
    | None => 10%Z
    end
    50.

Definition MAX_TIME_VALUE : Z := 8640000000000000.

Definition invalid_time : Error :=
  mkError None "RangeError: Invalid time value".

(** [Object.entries(logs).map(([key, log]) => ({ id: key, ...log, timestamp:
    new Date(log.timestamp).toISOString() }))]; [toISOString] throws outside
    the range of valid dates. *)
Fixpoint log_views (entries : list (string * AuthLog.t))
  : Error + list LogView :=
  match entries with
  | [] => inr []
  | (key, log) :: rest =>
      if (Z.abs (AuthLog.timestamp log) <=? MAX_TIME_VALUE)%Z
      then match log_views rest with
           | inr views =>
               inr (mkLogView key log (AuthLog.timestamp log) :: views)
           | inl e => inl e
           end
      else inl invalid_time
  end.

(** [app.get('/api/dashboard/logs')]. *)
Definition logs (req : Request) : Async Response :=
  try_catch
    (let limit := requested_limit (req_limit req) in
     logsSnapshot <- AWAIT AuthenticationLogsByTimestampLimitToLast limit ;;
     match log_views logsSnapshot with
     | inr views => respond 200 (LogsBody (rev views))
     | inl e => Throw e
     end)
    (fun error =>
       respond 500 (ErrorBody "Failed to fetch authentication logs")).

(** ** Requests in flight together *)

(** One turn of the event loop: a request in flight resumes from the
    [await] it is suspended at and runs up to its next [await] or to its
    end. *)
Definition resume {R : Type} (env : Env) (p : Async R) (w : World)
  : Async R * World :=
  match p with
  | Await op k => let '(s, w') := perform env op w in (k s, w')
  | _ => (p, w)
  end.

Fixpoint replace_nth {A : Type} (i : nat) (x : A) (l : list A) : list A :=
  match l, i with
  | [], _ => []
  | _ :: rest, O => x :: rest
  | y :: rest, S j => y :: replace_nth j x rest
  end.

(** The requests in flight are resumed in the order the schedule names
    them. *)
Fixpoint interleave {R : Type} (env : Env) (schedule : list nat)
  (pending : list (Async R)) (w : World) : list (Async R) * World :=
  match schedule with
  | [] => (pending, w)
  | i :: later =>
      match nth_error pending i with
      | Some p =>
          let '(p', w') := resume env p w in
          interleave env later (replace_nth i p' pending) w'
      | None => interleave env later pending w
      end
  end.

(** ** Revocation *)

(** Modelled from the spec: the source has no revoke operation; section 4.1
    says [revoke(id)] fails with NotFound for an unknown id and otherwise
    marks the template inactive.  [None] is NotFound. *)
Fixpoint revoke_child (id : string) (children : list (string * Voter.t))
  : option (list (string * Voter.t)) :=
  match children with
  | [] => None
  | (k, v) :: rest =>
      if k =? id
      then Some ((k, Voter.mk (Voter.id v) (Voter.name v) (Voter.email v)
                       (Voter.registrationDate v) (Voter.faceEncoding v)
                       "revoked" (Voter.createdAt v)) :: rest)
      else option_map (cons (k, v)) (revoke_child id rest)
  end.

(** Modelled from the spec: [revoke] on the whole store (see
    [revoke_child]); nothing but the template's status changes. *)
Definition revoke (id : string) (w : World) : option World :=
  option_map
    (fun vs => mkWorld vs (registration_logs w) (authentication_logs w)
                 (pushes w) (server_time w))
    (revoke_child id (voters w)).

(** ** What the statements below speak about *)

(** The snapshot of active templates, in snapshot order. *)
Definition active_templates (children : list (string * Voter.t))
  : list Voter.t :=
  filter is_active (map snd children).

(** The entries a run appended to [/authentication_logs]. *)
Definition appended_attempts {R : Type} (w : World) (r : Run R)
  : list (string * AuthLog.t) :=
  skipn (List.length (authentication_logs w)) (authentication_logs (final r)).

(** The count the specification asks of [successesToday]: every attempt of
    the whole log that succeeded at or after the start of the day. *)
Definition successes_since (todayTimestamp : Z)
  (entries : list (string * AuthLog.t)) : nat :=
  List.length
    (filter (fun log => (todayTimestamp <=? AuthLog.timestamp log)%Z
                        && is_success log)
       (map snd entries)).

(** Most recent first. *)
Definition newest_first (views : list LogView) : Prop :=
  StronglySorted (fun a b => (log_timestamp b <= log_timestamp a)%Z) views.

(** Timestamps never decrease along key order, as in a log that grew by
    pushes stamped by one server clock. *)
Definition stamped_in_order (entries : list (string * AuthLog.t)) : Prop :=
  StronglySorted
    (fun a b => (AuthLog.timestamp (snd a) <= AuthLog.timestamp (snd b))%Z)
    entries.

(** The contact keys of the stored templates. *)
Definition emails (children : list (string * Voter.t)) : list string :=
  map (fun c => Voter.email (snd c)) children.

(** No two templates share a contact key. *)
Definition unique_emails (children : list (string * Voter.t)) : Prop :=
  NoDup (emails children).

(** ** A sample deployment *)

Definition sample_validate_registration (b : RequestBody)
  : string + Registration :=
  match body_name b, body_email b, body_faceData b with
  | Some n, Some e, Some f =>
      if (String.length n <? 2)%nat
      then inl "name length must be at least 2 characters long"
      else inr (mkRegistration n e f)
  | None, _, _ => inl "name is required"
  | _, None, _ => inl "email is required"
  | _, _, None => inl "faceData is required"
  end.

Definition sample_validate_authentication (b : RequestBody)
  : string + string :=
  match body_faceData b with
  | Some f => inr f
  | None => inl "faceData is required"
  end.

Definition refused : Error :=
  mkError (Some "ECONNREFUSED") "connect ECONNREFUSED 127.0.0.1:5000".

Definition write_failed : Error :=
  mkError (Some "PERMISSION_DENIED") "PERMISSION_DENIED: Permission denied".

(** A stand-in face service: every image yields the encoding [[1]]; a stored
    encoding [[c]] with [0 <= c] scores [c] against any probe, a negative [c]
    is answered with [success: false], and for an empty encoding the service
    cannot be reached. *)
Definition sample_compare (probe stored : Encoding) : Settled CompareResponse :=
  match stored with
  | [] => Rejected refused
  | c :: _ =>
      if Qle_bool 0 c then Fulfilled (mkCompare true c)
      else Fulfilled (mkCompare false 0)
  end.

Definition sample_push_id (n : nat) : string :=
  String (Ascii.ascii_of_nat (65 + n)) "".

Definition sample_env : Env :=
  mkEnv sample_validate_registration sample_validate_authentication
    (fun _ => Fulfilled (mkExtract true [1%Q] ""))
    sample_compare sample_push_id (fun _ => None).

(** The same deployment while writes to [/registration_logs] and
    [/authentication_logs] are rejected. *)
Definition logless_env : Env :=
  mkEnv sample_validate_registration sample_validate_authentication
    (fun _ => Fulfilled (mkExtract true [1%Q] ""))
    sample_compare sample_push_id
    (fun r => match r with
              | RefRegistrationLogs | RefAuthenticationLogs => Some write_failed
              | _ => None
              end).

Definition template (id email : string) (encoding : Encoding)
  (status : string) : string * Voter.t :=
  (id, Voter.mk id id email "2024-01-20T10:30:00.000Z" encoding status 1000).

Definition empty_world : World := mkWorld [] [] [] 0 5000.

Definition world_of (children : list (string * Voter.t)) : World :=
  mkWorld children [] [] 0 5000.

Definition probe_request : Request :=
  mkRequest (mkBody None None (Some "img")) "10.0.0.7" None.

Definition ada_request : Request :=
  mkRequest (mkBody (Some "Ada") (Some "ada@example.org") (Some "img"))
    "10.0.0.7" None.

(** ** The scan without its effects *)

(** The pair [(bestMatch, bestConfidence)] once the templates [vs] have
    answered with their [score], starting from a given pair. *)
Fixpoint best_of (score : Voter.t -> Q) (vs : list Voter.t)
  (bestMatch : option Voter.t) (bestConfidence : Q) : option Voter.t * Q :=
  match vs with
  | [] => (bestMatch, bestConfidence)
  | v :: rest =>
      if Qgtb (score v) bestConfidence
      then best_of score rest (Some v) (score v)
      else best_of score rest bestMatch bestConfidence
  end.

(** The comparison requests a full scan of [vs] sends. *)
Definition comparisons (probe : Encoding) (vs : list Voter.t)
  : list (Encoding * Encoding) :=
  map (fun v => (probe, Voter.faceEncoding v)) vs.

(** [bestMatch] is set exactly when [bestConfidence] has left zero. *)
Definition null_iff_zero (best : option Voter.t * Q) : Prop :=
  (fst best = None /\ snd best = 0) \/ (fst best <> None /\ 0 < snd best).

(** The spec's example population: A and B score 0.92, C scores 0.40, A
    comes first in snapshot order. *)
Definition example_population : World :=
  world_of [template "A" "a@example.org" [92 # 100] "active";
            template "B" "b@example.org" [92 # 100] "active";
            template "C" "c@example.org" [40 # 100] "active"].

(** The score [sample_compare] gives a stored template. *)
Definition sample_score (v : Voter.t) : Q := hd 0 (Voter.faceEncoding v).

(** A run continued after the calls [t]. *)
Definition after_calls {R : Type} (t : list Call) (r : Run R) : Run R :=
  mkRun (outcome r) (final r) (t ++ trace r).

(** A population whose only template is not active. *)
Definition revoked_only : World :=
  world_of [template "R" "r@example.org" [99 # 100] "revoked"].

(** ** Attempt records *)



(** The record [/api/authenticate] pushes for a finished scan. *)
Definition attempt_of (req : Request) (best : option Voter.t * Q) (TIMESTAMP : Z)
  : AuthLog.t :=
  AuthLog.mk TIMESTAMP
    (option_map Voter.id (fst best)) (option_map Voter.name (fst best))
    (if Qgeb (snd best) CONFIDENCE_THRESHOLD then "success" else "failed")
    (snd best) (req_ip req).

(** A population whose best candidate scores 0.70. *)
Definition near_miss : World :=
  world_of [template "A" "a@example.org" [70 # 100] "active"].

(** The response [/api/authenticate] gives for a finished scan once the
    attempt is logged. *)
Definition verdict (best : option Voter.t * Q) : Response :=
  if Qgeb (snd best) CONFIDENCE_THRESHOLD
  then match fst best with
       | Some m =>
           mkResponse 200
             (AuthenticatedBody "Authentication successful"
                (mkVoterView (Voter.id m) (Voter.name m) (Voter.email m))
                (snd best))
       | None => mkResponse 500 (ErrorBody "Internal server error")
       end
  else mkResponse 401
         (AuthenticationFailedBody "Authentication failed" (snd best)).

(** The templates whose comparison came back with [success: true]. *)
Definition answered_ok (answer : Voter.t -> CompareResponse)
  (vs : list Voter.t) : list Voter.t :=
  filter (fun v => compare_success (answer v)) vs.

(** The partial-failure rule as the specification words it, for the probe
    [probe]: every active template is still compared; when some comparison
    works the call does not fail as unavailable; when none does, the call
    fails with 503 and writes no attempt. *)
Definition comparison_failed (env : Env) (probe : Encoding) (v : Voter.t)
  : bool :=
  match compare_faces env probe (Voter.faceEncoding v) with
  | Fulfilled c => negb (compare_success c)
  | Rejected _ => true
  end.

Definition status_of (o : Outcome Response) : nat :=
  match o with
  | Returned resp => status resp
  | Uncaught _ => 0
  end.

Definition tolerates_oracle_failures (env : Env) (req : Request) (w : World)
  (probe : Encoding) : Prop :=
  let r := run env (authenticate env req) w in
  let vs := active_templates (voters w) in
  compared (trace r) = comparisons probe vs
  /\ (forallb (comparison_failed env probe) vs = false ->
      status_of (outcome r) <> 503%nat)
  /\ (vs <> [] -> forallb (comparison_failed env probe) vs = true ->
      status_of (outcome r) = 503%nat /\ appended_attempts w r = []).

(** A population whose first template cannot be compared (the service is
    unreachable for it) while the second scores 0.92. *)
Definition flaky_population : World :=
  world_of [template "A" "a@example.org" [] "active";
            template "B" "b@example.org" [92 # 100] "active"].

(** A population for which every comparison answers [success: false]. *)
Definition unanswered_population : World :=
  world_of [template "A" "a@example.org" [(-1) # 1] "active";
            template "B" "b@example.org" [(-1) # 1] "active"].

(** The answer [sample_compare] gives for a stored template it can reach. *)
Definition sample_answer (v : Voter.t) : CompareResponse :=
  match Voter.faceEncoding v with
  | c :: _ => if Qle_bool 0 c then mkCompare true c else mkCompare false 0
  | [] => mkCompare false 0
  end.

(** ** Audit-log failures *)

(** The same deployment with both audit logs accepting writes. *)
Definition with_working_logs (env : Env) : Env :=
  mkEnv (validate_registration env) (validate_authentication env)
    (extract_features env) (compare_faces env) (push_id env)
    (fun r => match r with
              | RefRegistrationLogs | RefAuthenticationLogs => None
              | _ => db_rejects env r
              end).

(** The audit contract as the specification words it: whether or not the
    log accepts the append, the caller gets the same answer. *)
Definition audit_failure_swallowed (env : Env) (handler : Env -> Async Response)
  (w : World) : Prop :=
  outcome (run env (handler env) w)
  = outcome (run (with_working_logs env) (handler (with_working_logs env)) w).

(** ** Dashboard samples *)

(** [stats.successfulAuthsToday] of a response. *)
Definition reported_today (o : Outcome Response) : option nat :=
  match o with
  | Returned (mkResponse _ (StatsBody s)) => Some (successfulAuthsToday s)
  | _ => None
  end.

(** 2024-01-20T11:26:40Z, read in a process running on UTC. *)
Definition sample_now : Z := 1705750000000.

Definition success_at (i : nat) (ts : Z) : string * AuthLog.t :=
  (sample_push_id i,
   AuthLog.mk ts (Some "A") (Some "A") "success" (92 # 100) "10.0.0.7").

(** A day with 101 successful attempts, one per second from 00:00:01. *)
Definition busy_day : World :=
  mkWorld [] []
    (map (fun i => success_at i (1705708800000 + 1000 * Z.of_nat (S i)))
       (seq 0 101))
    101 sample_now.

(** A log whose only attempt succeeded on the stroke of midnight. *)
Definition midnight_only : World :=
  mkWorld [] [] [success_at 0 1705708800000] 1 sample_now.

(** Three attempts, a minute apart. *)
Definition three_attempts : World :=
  mkWorld [] []
    [success_at 0 1705708860000; success_at 1 1705708920000;
     success_at 2 1705708980000]
    3 sample_now.

(** Three attempts whose timestamps do not follow key order: the one
    pushed first carries the latest timestamp. *)
Definition shuffled_attempts : World :=
  mkWorld [] [] [success_at 0 300; success_at 1 100; success_at 2 200]
    3 sample_now.

Definition limit_request (parsed : option Z) : Request :=
  mkRequest (mkBody None None None) "10.0.0.7" parsed.

Definition view_of (entry : string * AuthLog.t) : LogView :=
  mkLogView (fst entry) (snd entry) (AuthLog.timestamp (snd entry)).

(** ** Requests served one after another *)

Inductive Incoming : Type :=
| PostRegister (req : Request) (voterId registrationDate : string)
| PostAuthenticate (req : Request)
| GetStats (tzOffset now : Z)
| GetLogs (req : Request).

Definition handle (env : Env) (i : Incoming) : Async Response :=
  match i with
  | PostRegister req voterId registrationDate =>
      register env req voterId registrationDate
  | PostAuthenticate req => authenticate env req
  | GetStats tzOffset now => stats tzOffset now
  | GetLogs req => logs req
  end.

(** The world when the server clock reads [t]. *)
Definition at_time (t : Z) (w : World) : World :=
  mkWorld (voters w) (registration_logs w) (authentication_logs w)
    (pushes w) t.

(** The world after the requests, each with the instant it arrives at, were
    handled in turn, each to completion. *)
Definition served (env : Env) (incoming : list (Z * Incoming)) (w : World)
  : World :=
  fold_left
    (fun w arrival =>
       final (run env (handle env (snd arrival)) (at_time (fst arrival) w)))
    incoming w.

(** The request does not register under the key [id]. *)
Definition spares_key (id : string) (i : Incoming) : Prop :=
  match i with
  | PostRegister _ voterId _ => voterId <> id
  | _ => True
  end.

(** The template stored under [id], if any, is not active. *)
Definition inactive_at (id : string) (w : World) : Prop :=
  forall v, In (id, v) (voters w) -> is_active v = false.

(** A population with one active and one soon-to-be revoked template. *)
Definition two_templates : World :=
  world_of [template "A" "a@example.org" [92 # 100] "active";
            template "B" "b@example.org" [95 # 100] "active"].

(** ** Interleaved registrations *)

Definition succeeded (p : Async Response) : bool :=
  match p with
  | Return resp => Nat.eqb (status resp) 201
  | _ => false
  end.

(** The uniqueness contract as the specification words it, for requests
    resumed under a schedule: one registration wins and contact keys stay
    unique. *)
Definition one_writer_wins (env : Env) (schedule : list nat)
  (pending : list (Async Response)) (w : World) : Prop :=
  let '(done, w') := interleave env schedule pending w in
  List.length (filter succeeded done) = 1%nat /\ unique_emails (voters w').

(** Two registrations of the same email, resumed in turn. *)
Definition racing_registrations : list (Async Response) :=
  [register sample_env ada_request "uuid-1" "now";
   register sample_env ada_request "uuid-2" "now"].

Definition alternating : list nat := [0; 1; 0; 1; 0; 1; 0; 1]%nat.

(** ** What a handler run can come to *)

(** What a scan over the pool [pool] of active templates can end on: the
    initial pair, or a template of the pool together with the confidence the
    face service answered for it with [success: true]. *)
Definition found_in (env : Env) (probe : Encoding) (pool : list Voter.t)
  (best : option Voter.t * Q) : Prop :=
  best = (None, 0)
  \/ exists v c,
       best = (Some v, compare_confidence c)
       /\ In v pool
       /\ compare_faces env probe (Voter.faceEncoding v) = Fulfilled c
       /\ compare_success c = true
       /\ 0 < compare_confidence c.

(** The status codes the routes answer with. *)
Definition known_status (code : nat) : Prop :=
  In code [200; 201; 400; 401; 409; 500; 503]%nat.

Definition is_error_body (b : Body) : Prop :=
  match b with
  | ErrorBody _ => True
  | _ => False
  end.

(** The record [/api/register] stores for a validated request. *)
Definition voter_record (voterId registrationDate : string)
  (value : Registration) (faceResponse : ExtractResponse) (TIMESTAMP : Z)
  : Voter.t :=
  Voter.mk voterId (reg_name value) (reg_email value) registrationDate
    (extract_faceEncoding faceResponse) "active" TIMESTAMP.

(** The world with only its active templates. *)
Definition only_active (w : World) : World :=
  mkWorld (filter (fun c => is_active (snd c)) (voters w))
    (registration_logs w) (authentication_logs w) (pushes w) (server_time w).

(** The keys of a node's children strictly increase. *)
Definition keys_in_order {A : Type} (children : list (string * A)) : Prop :=
  StronglySorted (fun a b => String.compare (fst a) (fst b) = Lt) children.



(** The entry [/api/register] appends to the registration log. *)
Definition registration_entry (voterId : string) (value : Registration)
  (TIMESTAMP : Z) : RegLog.t :=
  RegLog.mk voterId (reg_name value) TIMESTAMP "registered".

(** The world once [/api/register] has stored its template. *)
Definition with_template (voterId registrationDate : string)
  (value : Registration) (faceResponse : ExtractResponse) (w : World)
  : World :=
  mkWorld
    (set_child voterId
       (voter_record voterId registrationDate value faceResponse
          (server_time w))
       (voters w))
    (registration_logs w) (authentication_logs w) (pushes w) (server_time w).

(** The world once the registration is logged as well. *)
Definition with_registration (env : Env) (voterId registrationDate : string)
  (value : Registration) (faceResponse : ExtractResponse) (w : World)
  : World :=
  mkWorld
    (voters (with_template voterId registrationDate value faceResponse w))
    (registration_logs w
     ++ [(push_id env (pushes w),
          registration_entry voterId value (server_time w))])
    (authentication_logs w) (S (pushes w)) (server_time w).

(** The attempt record says what the response [resp] says: same confidence,
    [success] with the named voter for a 200, [failed] for a 401. *)
Definition record_matches (resp : Response) (log : AuthLog.t) : Prop :=
  match body resp with
  | AuthenticatedBody _ view confidence =>
      status resp = 200%nat
      /\ AuthLog.confidence log = confidence
      /\ AuthLog.result log = "success"
      /\ AuthLog.voterId log = Some (view_id view)
      /\ AuthLog.voterName log = Some (view_name view)
  | AuthenticationFailedBody _ confidence =>
      status resp = 401%nat
      /\ AuthLog.confidence log = confidence
      /\ AuthLog.result log = "failed"
  | _ => False
  end.

(** [/api/authenticate] as it stands after two turns of the event loop: the
    features are extracted and the snapshot of [/voters] is read. *)
Definition after_snapshot (env : Env) (req : Request) (w : World)
  : Async Response :=
  let '(extracted, w1) := resume env (authenticate env req) w in
  fst (resume env extracted w1).

(** [toISOString] can render the timestamp. *)
Definition renderable (entry : string * AuthLog.t) : Prop :=
  (Z.abs (AuthLog.timestamp (snd entry)) <= MAX_TIME_VALUE)%Z.

Definition stats_failed : Response :=
  mkResponse 500 (ErrorBody "Failed to fetch dashboard statistics").

Definition logs_failed : Response :=
  mkResponse 500 (ErrorBody "Failed to fetch authentication logs").

Definition service_unavailable : Response :=
  mkResponse 503 (ErrorBody "Face recognition service unavailable").

Definition face_not_detected (faceResponse : ExtractResponse) : Response :=
  mkResponse 400
    (ErrorBody ("Face detection failed: " ++ extract_error faceResponse)).

(** A face service that cannot be reached, and one that finds no face. *)
Definition unreachable_env : Env :=
  mkEnv sample_validate_registration sample_validate_authentication
    (fun _ => Rejected refused)
    sample_compare sample_push_id (fun _ => None).

Definition faceless_env : Env :=
  mkEnv sample_validate_registration sample_validate_authentication
    (fun _ => Fulfilled (mkExtract false [] "Face could not be detected"))
    sample_compare sample_push_id (fun _ => None).

(** The confidence an answered response carries. *)
Definition reported_confidence (response : Response) : option Q :=
  match body response with
  | AuthenticatedBody _ _ confidence => Some confidence
  | AuthenticationFailedBody _ confidence => Some confidence
  | _ => None
  end.

(** A population whose first template is answered [success: false] while
    the second scores 0.92. *)
Definition flaky_free : World :=
  world_of [template "A" "a@example.org" [(-1) # 1] "active";
            template "B" "b@example.org" [92 # 100] "active"].

(** The attempt is less than a day older than [sample_now]. *)
Definition now_minus_day_before (log : AuthLog.t) : Prop :=
  (sample_now - MS_PER_DAY < AuthLog.timestamp log)%Z.

(** ** The browser client ([app.js]) *)

(** [response.ok]: a status in the range 200 to 299. *)
Definition response_ok (response : Response) : bool :=
  (200 <=? status response)%nat && (status response <=? 299)%nat.

(** [data.error]: only the error bodies have the property. *)
Definition data_error (data : Body) : option string :=
  match data with
  | ErrorBody error => Some error
  | _ => None
  end.

(** [x || fallback] for a string that may be undefined; the empty string is
    falsy. *)
Definition or_default (x : option string) (fallback : string) : string :=
  match x with
  | Some s => if s =? "" then fallback else s
  | None => fallback
  end.

(** [VoterAPI.makeRequest], from the way [fetch] settled: the parsed body of
    a response that is [ok], otherwise an [Error] with the body's [error] or
    "API request failed"; a rejection of [fetch] is rethrown. *)
Definition makeRequest (fetched : Settled Response) : Settled Body :=
  match fetched with
  | Rejected error => Rejected error
  | Fulfilled response =>
      if negb (response_ok response)
      then Rejected
             (mkError None
                (or_default (data_error (body response))
                   "API request failed"))
      else Fulfilled (body response)
  end.

(** The text of [#confidence-score]: "Confidence: x%", with
    " (Below threshold)" after it or not, where x renders
    [(confidence * 100).toFixed(1)] ([None] when the response has no
    confidence), or "System error occurred". *)
Inductive ConfidenceText : Type :=
| ConfidencePercent (confidence : option Q) (belowThreshold : bool)
| SystemErrorOccurred.

(** What [performAuthentication] leaves on the page: the class of
    [#auth-result-status], the confidence text, the name and id shown in
    [#voter-details] ([None] when hidden), the text of [#auth-status], and
    the toast (message and type). *)
Record AuthScreen : Type := mkAuthScreen {
  resultClass : string;
  confidenceText : ConfidenceText;
  voterDetails : option (string * string);
  statusText : string;
  toast : string * string
}.

(** The [catch] block of [performAuthentication]. *)
Definition error_screen (error : Error) : AuthScreen :=
  mkAuthScreen "result-status failure" SystemErrorOccurred None
    "System error - Please try again"
    (or_default (Some (message error))
       "Authentication system error. Please try again.",
     "error").

(** Reading [response.voter.name] when the body has no [voter]. *)
Definition undefined_voter : Error :=
  mkError None "TypeError: Cannot read properties of undefined".

Definition below_threshold_screen (confidence : option Q) : AuthScreen :=
  mkAuthScreen "result-status failure" (ConfidencePercent confidence true)
    None "Authentication failed - Face not recognized"
    ("Authentication failed - Face not recognized", "error").

(** [VoterFRS.performAuthentication], from the way the [fetch] of
    [/authenticate] settled.  Bodies with [success: true] but no [voter]
    throw in the success branch and end in the [catch] block. *)
Definition performAuthentication (fetched : Settled Response) : AuthScreen :=
  match makeRequest fetched with
  | Fulfilled (AuthenticatedBody _ voter confidence) =>
      mkAuthScreen "result-status success"
        (ConfidencePercent (Some confidence) false)
        (Some (view_name voter, view_id voter))
        "Authentication successful!"
        (("Welcome, " ++ view_name voter ++ "!")%string, "success")
  | Fulfilled (AuthenticationFailedBody _ confidence) =>
      below_threshold_screen (Some confidence)
  | Fulfilled (ErrorBody _) => below_threshold_screen None
  | Fulfilled _ => error_screen undefined_voter
  | Rejected error => error_screen error
  end.

(** The body [registerVoter] sends. *)
Definition registration_body (name email faceData : string) : RequestBody :=
  mkBody (Some name) (Some email) (Some faceData).

(** [VoterFRS.submitRegistration]: the toast it shows, given the captured
    image if any, the form's name and email, and how the [fetch] of
    [/register] settles for a body. *)
Definition submitRegistration (capturedFaceData : option string)
  (name email : string) (fetch : RequestBody -> Settled Response)
  : string * string :=
  match capturedFaceData with
  | None => ("Please capture your face first", "error")
  | Some image =>
      match makeRequest (fetch (registration_body name email image)) with
      | Fulfilled _ => ("Registration completed successfully!", "success")
      | Rejected error =>
          (or_default (Some (message error))
             "Registration failed. Please try again.",
           "error")
      end
  end.

(** A row of [#auth-logs-table]: the instant, the name or "Unknown", the
    class suffix of the status badge, the result and the confidence. *)
Record LogRow : Type := mkLogRow {
  row_time : Z;
  row_name : string;
  row_class : string;
  row_result : string;
  row_confidence : Q
}.

Inductive LogsTable : Type :=
| Rows (rows : list LogRow)
| UnableToLoad.

Definition log_row (log : LogView) : LogRow :=
  mkLogRow (log_timestamp log)
    (or_default (AuthLog.voterName (log_entry log)) "Unknown")
    (if AuthLog.result (log_entry log) =? "success" then "success"
     else "error")
    (AuthLog.result (log_entry log))
    (AuthLog.confidence (log_entry log)).

(** [VoterFRS.loadAuthenticationLogs], from the way the [fetch] of
    [/dashboard/logs?limit=10] settled; a body without [logs] throws at
    [logsResponse.logs.forEach]. *)
Definition loadAuthenticationLogs (fetched : Settled Response) : LogsTable :=
  match makeRequest fetched with
  | Fulfilled (LogsBody logs) => Rows (map log_row logs)
  | _ => UnableToLoad
  end.

(** The request [getAuthenticationLogs(10)] makes: [parseInt("10")]. *)
Definition dashboard_logs_request (ip : string) : Request :=
  mkRequest (mkBody None None None) ip (Some 10%Z).

(** What [fetch] resolves with once a handler has responded. *)
Definition responded (o : Outcome Response) : Settled Response :=
  match o with
  | Returned response => Fulfilled response
  | Uncaught error => Rejected error
  end.

(** A population whose only template, registered under an empty name,
    scores 0.70. *)
Definition nameless_near_miss : World :=
  world_of
    [("N", Voter.mk "N" "" "n@example.org" "2024-01-20T10:30:00.000Z"
             [70 # 100] "active" 1000)].

(** * Properties *)

(** ** Running composed programs *)

Lemma run_bind {A B : Type} (env : Env) (p : Async A) (f : A -> Async B) :
  forall w,
    run env (bind p f) w =
    match outcome (run env p w) with
    | Returned a =>
        let r2 := run env (f a) (final (run env p w)) in
        mkRun (outcome r2) (final r2) (trace (run env p w) ++ trace r2)
    | Uncaught e =>
        mkRun (Uncaught e) (final (run env p w)) (trace (run env p w))
    end.
Proof.
  induction p as [a | e | X op k IH]; intro w; simpl.
  - destruct (run env (f a) w); reflexivity.
  - reflexivity.
  - destruct (perform env op w) as [s w']. simpl.
    rewrite IH. destruct (outcome (run env (k s) w')); reflexivity.
Qed.

Lemma run_try_catch {R : Type} (env : Env) (p : Async R)
  (h : Error -> Async R) :
  forall w,
    run env (try_catch p h) w =
    match outcome (run env p w) with
    | Returned a =>
        mkRun (Returned a) (final (run env p w)) (trace (run env p w))
    | Uncaught e =>
        let r2 := run env (h e) (final (run env p w)) in
        mkRun (outcome r2) (final r2) (trace (run env p w) ++ trace r2)
    end.
Proof.
  induction p as [a | e | X op k IH]; intro w; simpl.
  - reflexivity.
  - destruct (run env (h e) w); reflexivity.
  - destruct (perform env op w) as [s w']. simpl.
    rewrite IH. destruct (outcome (run env (k s) w')); reflexivity.
Qed.

Lemma run_await {R X : Type} (env : Env) (op : Op X) (k : X -> Async R) w :
  run env (await op k) w =
  match fst (perform env op w) with
  | Fulfilled x =>
      let r := run env (k x) (snd (perform env op w)) in
      mkRun (outcome r) (final r) (Called op :: trace r)
  | Rejected e =>
      mkRun (Uncaught e) (snd (perform env op w)) [Called op]
  end.
Proof.
  unfold await. simpl. destruct (perform env op w) as [[x | e] w']; reflexivity.
Qed.

(** The [catch] blocks answer without touching the world. *)
Lemma run_service_catch_eq env e w :
  run env (service_catch e) w = mkRun (Returned (service_failure e)) w [].
Proof. reflexivity. Qed.

Lemma run_service_catch env e w :
  exists resp, run env (service_catch e) w = mkRun (Returned resp) w [].
Proof. eexists. apply run_service_catch_eq. Qed.

(** A loop inside a [try] block: its result goes on inside the block, its
    exception goes to the handler. *)
Lemma run_try_catch_bind {A R : Type} (env : Env) (p : Async A)
  (f : A -> Async R) (h : Error -> Async R) :
  forall w,
    run env (try_catch (bind p f) h) w =
    after_calls (trace (run env p w))
      match outcome (run env p w) with
      | Returned a => run env (try_catch (f a) h) (final (run env p w))
      | Uncaught e => run env (h e) (final (run env p w))
      end.
Proof.
  unfold after_calls.
  induction p as [a | e | X op k IH]; intro w; simpl.
  - destruct (run env (try_catch (f a) h) w); reflexivity.
  - destruct (run env (h e) w); reflexivity.
  - destruct (perform env op w) as [s w']. simpl. rewrite IH. reflexivity.
Qed.

Opaque service_catch.

(** ** The scan *)

Lemma compared_app t1 t2 : compared (t1 ++ t2) = compared t1 ++ compared t2.
Proof.
  induction t1 as [| [X op] t1 IH]; simpl; [reflexivity |].
  destruct op; simpl; rewrite ?IH; reflexivity.
Qed.

Lemma compared_comparison_calls probe vs :
  compared
    (map (fun v => Called (CompareFaces probe (Voter.faceEncoding v))) vs)
  = comparisons probe vs.
Proof.
  induction vs as [| v vs IH]; simpl; [reflexivity | now rewrite IH].
Qed.

Ltac case_active voter :=
  change (Voter.status voter =? "active") with (is_active voter) in *;
  destruct (is_active voter) eqn:?; simpl.

(** The scan only talks to the face service: the database is as before. *)
Lemma scan_final env probe entries :
  forall bm bc w, final (run env (scan probe entries bm bc) w) = w.
Proof.
  induction entries as [| [voterId voter] rest IH]; intros bm bc w; simpl.
  - reflexivity.
  - case_active voter; [| apply IH].
    destruct (compare_faces env probe (Voter.faceEncoding voter)) as [c | e];
      simpl; [| reflexivity].
    destruct (compare_success c && Qgtb (compare_confidence c) bc); apply IH.
Qed.

(** Templates that are not active are never sent to the face service. *)
Lemma scan_compares_active_only env probe entries :
  forall bm bc w pair,
    In pair (compared (trace (run env (scan probe entries bm bc) w))) ->
    exists v, In v (active_templates entries)
              /\ pair = (probe, Voter.faceEncoding v).
Proof.
  unfold active_templates.
  induction entries as [| [voterId voter] rest IH]; intros bm bc w pair; simpl.
  - intros [].
  - case_active voter.
    + destruct (compare_faces env probe (Voter.faceEncoding voter)) as [c | e];
        simpl.
      * intros [<- | Hin]; [eauto |].
        destruct (compare_success c && Qgtb (compare_confidence c) bc);
          apply IH in Hin; destruct Hin as (v & ? & ?); eauto.
      * intros [<- | []]; eauto.
    + intro Hin. apply IH in Hin. exact Hin.
Qed.

(** When every active template gets an answer, the scan sends exactly one
    comparison per active template, in snapshot order, and ends on [best_of]
    over those that answered [success: true]. *)
Lemma scan_answered env probe (answer : Voter.t -> CompareResponse) entries :
  (forall v, In v (active_templates entries) ->
     compare_faces env probe (Voter.faceEncoding v) = Fulfilled (answer v)) ->
  forall bm bc w,
    run env (scan probe entries bm bc) w =
    mkRun
      (Returned
         (best_of (fun v => compare_confidence (answer v))
            (answered_ok answer (active_templates entries)) bm bc))
      w
      (map (fun v => Called (CompareFaces probe (Voter.faceEncoding v)))
         (active_templates entries)).
Proof.
  unfold active_templates, answered_ok.
  induction entries as [| [voterId voter] rest IH]; intros Hans bm bc w; simpl.
  - reflexivity.
  - simpl in Hans. case_active voter.
    + rewrite (Hans voter (or_introl eq_refl)). simpl.
      destruct (compare_success (answer voter)); simpl;
        [destruct (Qgtb (compare_confidence (answer voter)) bc) |];
        rewrite IH by (intros; apply Hans; right; assumption); reflexivity.
    + apply IH. exact Hans.
Qed.

(** When the call for an active template is rejected, the scan stops there:
    the templates after it are not compared and the rejection is thrown. *)
Lemma scan_rejected env probe (answer : Voter.t -> CompareResponse) e entries :
  forall before v after,
    active_templates entries = before ++ v :: after ->
    (forall u, In u before ->
       compare_faces env probe (Voter.faceEncoding u) = Fulfilled (answer u)) ->
    compare_faces env probe (Voter.faceEncoding v) = Rejected e ->
    forall bm bc w,
      run env (scan probe entries bm bc) w =
      mkRun (Uncaught e) w
        (map (fun u => Called (CompareFaces probe (Voter.faceEncoding u)))
           (before ++ [v])).
Proof.
  unfold active_templates.
  induction entries as [| [voterId voter] rest IH];
    intros before v after Hsplit Hans Hrej bm bc w; simpl in *.
  - destruct before; discriminate.
  - case_active voter.
    + destruct before as [| b before]; simpl in *.
      * injection Hsplit as -> _. rewrite Hrej. reflexivity.
      * injection Hsplit as -> Hrest.
        rewrite (Hans b (or_introl eq_refl)). simpl.
        destruct (compare_success (answer b)
                  && Qgtb (compare_confidence (answer b)) bc);
          rewrite (IH before v after Hrest) by auto; reflexivity.
    + eapply IH; eassumption.
Qed.

(** ** The running maximum *)

Lemma Qgtb_true a b : Qgtb a b = true <-> b < a.
Proof.
  unfold Qgtb. rewrite negb_true_iff. split.
  - intro H. apply Qnot_le_lt. intro Hle.
    apply Qle_bool_iff in Hle. congruence.
  - intro H. destruct (Qle_bool a b) eqn:E; [| reflexivity].
    apply Qle_bool_iff in E. exfalso. exact (Qlt_not_le _ _ H E).
Qed.

Lemma Qgtb_false a b : Qgtb a b = false <-> a <= b.
Proof.
  unfold Qgtb. rewrite negb_false_iff. apply Qle_bool_iff.
Qed.

Lemma Qgeb_true a b : Qgeb a b = true <-> b <= a.
Proof. unfold Qgeb. apply Qle_bool_iff. Qed.

(** Either nothing beat the starting pair, or the result is the first
    template of [vs] whose score is the greatest and beats the start. *)
Lemma best_of_first_maximum score vs :
  forall bm bc,
    (best_of score vs bm bc = (bm, bc)
     /\ forall v, In v vs -> score v <= bc)
    \/ exists before winner after,
         vs = before ++ winner :: after
         /\ best_of score vs bm bc = (Some winner, score winner)
         /\ bc < score winner
         /\ (forall v, In v before -> score v < score winner)
         /\ (forall v, In v after -> score v <= score winner).
Proof.
  induction vs as [| v rest IH]; intros bm bc; simpl.
  - left. split; [reflexivity | intros v []].
  - destruct (Qgtb (score v) bc) eqn:E.
    + apply Qgtb_true in E. right.
      destruct (IH (Some v) (score v))
        as [[Heq Hle] | (before & winner & after & -> & Heq & Hlt & Hb & Ha)].
      * exists [], v, rest. repeat split; auto. intros u [].
      * exists (v :: before), winner, after. repeat split; auto.
        -- eapply Qlt_trans; eassumption.
        -- intros u [<- | Hu]; auto.
    + apply Qgtb_false in E.
      destruct (IH bm bc)
        as [[Heq Hle] | (before & winner & after & -> & Heq & Hlt & Hb & Ha)].
      * left. split; [assumption |]. intros u [<- | Hu]; auto.
      * right. exists (v :: before), winner, after. repeat split; auto.
        intros u [<- | Hu]; auto. eapply Qle_lt_trans; eassumption.
Qed.

(** ** Identification *)

Lemma filter_all {A : Type} (l : list A) : filter (fun _ => true) l = l.
Proof.
  induction l as [| x l IH]; simpl; [reflexivity | now rewrite IH].
Qed.

(** The run of [/api/authenticate] once the request is valid, a face was
    extracted, the database answers and every active template got an answer:
    every active template was compared, one attempt was appended, and the
    response is the verdict on the best of those that answered
    [success: true]. *)
Lemma authenticate_answered env req w faceData faceResponse answer :
  validate_authentication env (req_body req) = inr faceData ->
  extract_features env faceData = Fulfilled faceResponse ->
  extract_success faceResponse = true ->
  db_rejects env RefVoters = None ->
  db_rejects env RefAuthenticationLogs = None ->
  (forall v, In v (active_templates (voters w)) ->
     compare_faces env (extract_faceEncoding faceResponse)
       (Voter.faceEncoding v)
     = Fulfilled (answer v)) ->
  let r := run env (authenticate env req) w in
  let best :=
    best_of (fun v => compare_confidence (answer v))
      (answered_ok answer (active_templates (voters w))) None 0 in
  compared (trace r)
  = comparisons (extract_faceEncoding faceResponse)
      (active_templates (voters w))
  /\ authentication_logs (final r)
     = authentication_logs w
       ++ [(push_id env (pushes w), attempt_of req best (server_time w))]
  /\ outcome r = Returned (verdict best).
Proof.
  intros Hval Hext Hok Hdb Hlog Hans r best.
  subst r. unfold authenticate. rewrite Hval. simpl.
  rewrite Hext. simpl. rewrite Hok. simpl.
  unfold with_ref. rewrite Hdb. simpl.
  rewrite run_try_catch_bind, (scan_answered env _ answer) by assumption.
  fold best. destruct best as [bestMatch bestConfidence]. simpl.
  unfold with_ref. rewrite Hlog. simpl.
  unfold verdict, attempt_of. simpl.
  destruct (Qgeb bestConfidence CONFIDENCE_THRESHOLD), bestMatch; simpl;
    rewrite ?compared_app, ?compared_comparison_calls; simpl;
    rewrite ?app_nil_r; repeat split.
Qed.

(** The same when every active template answers [success: true] with its
    [score]. *)
Lemma authenticate_scored env req w faceData faceResponse score :
  validate_authentication env (req_body req) = inr faceData ->
  extract_features env faceData = Fulfilled faceResponse ->
  extract_success faceResponse = true ->
  db_rejects env RefVoters = None ->
  db_rejects env RefAuthenticationLogs = None ->
  (forall v, In v (active_templates (voters w)) ->
     compare_faces env (extract_faceEncoding faceResponse)
       (Voter.faceEncoding v)
     = Fulfilled (mkCompare true (score v))) ->
  let r := run env (authenticate env req) w in
  compared (trace r)
  = comparisons (extract_faceEncoding faceResponse)
      (active_templates (voters w))
  /\ outcome r
     = Returned (verdict (best_of score (active_templates (voters w)) None 0)).
Proof.
  intros Hval Hext Hok Hdb Hlog Hscore.
  destruct (authenticate_answered env req w faceData faceResponse
              (fun v => mkCompare true (score v))
              Hval Hext Hok Hdb Hlog Hscore) as (Htrace & _ & Hout).
  unfold answered_ok in Hout. simpl in Hout. rewrite filter_all in Hout.
  split; assumption.
Qed.

(** C1: over a non-empty snapshot of active templates that all get a score
    (non-negative, as the oracle's contract says), [/api/authenticate]
    compares every active template once, in snapshot order and without early
    exit; the reported confidence is the greatest score; the winner is the
    first template in snapshot order that reaches it (earlier ones score
    strictly less, later ones at most as much); and the response is the
    winner with status 200 exactly when that maximum is at least
    [CONFIDENCE_THRESHOLD], otherwise a 401 carrying the maximum. *)
Theorem identify_returns_first_global_maximum
  env req w faceData faceResponse (score : Voter.t -> Q) :
  validate_authentication env (req_body req) = inr faceData ->
  extract_features env faceData = Fulfilled faceResponse ->
  extract_success faceResponse = true ->
  db_rejects env RefVoters = None ->
  db_rejects env RefAuthenticationLogs = None ->
  active_templates (voters w) <> [] ->
  (forall v, In v (active_templates (voters w)) ->
     compare_faces env (extract_faceEncoding faceResponse)
       (Voter.faceEncoding v)
     = Fulfilled (mkCompare true (score v))
     /\ 0 <= score v) ->
  let r := run env (authenticate env req) w in
  exists before winner after confidence,
    active_templates (voters w) = before ++ winner :: after
    /\ (forall v, In v before -> score v < score winner)
    /\ (forall v, In v after -> score v <= score winner)
    /\ confidence == score winner
    /\ compared (trace r)
       = comparisons (extract_faceEncoding faceResponse)
           (before ++ winner :: after)
    /\ (CONFIDENCE_THRESHOLD <= score winner ->
        outcome r
        = Returned
            (mkResponse 200
               (AuthenticatedBody "Authentication successful"
                  (mkVoterView (Voter.id winner) (Voter.name winner)
                     (Voter.email winner))
                  confidence)))
    /\ (score winner < CONFIDENCE_THRESHOLD ->
        outcome r
        = Returned
            (mkResponse 401
               (AuthenticationFailedBody "Authentication failed"
                  confidence))).
Proof.
  intros Hval Hext Hok Hdb Hlog Hne Hscore r.
  assert (Hcmp : forall v, In v (active_templates (voters w)) ->
            compare_faces env (extract_faceEncoding faceResponse)
              (Voter.faceEncoding v)
            = Fulfilled (mkCompare true (score v)))
    by (intros v Hv; apply Hscore; exact Hv).
  destruct (authenticate_scored env req w faceData faceResponse score
              Hval Hext Hok Hdb Hlog Hcmp) as [Htrace Hout].
  fold r in Htrace, Hout. unfold verdict in Hout.
  destruct (best_of_first_maximum score (active_templates (voters w)) None 0)
    as [[Heq Hle] | (before & winner & after & Hsplit & Heq & Hlt & Hb & Ha)].
  - (* every score is zero: nothing displaced the initial pair *)
    rewrite Heq in Hout. simpl in Hout.
    destruct (active_templates (voters w)) as [| first others] eqn:Hact;
      [contradiction |].
    assert (Hzero : forall v, In v (first :: others) -> score v == 0).
    { intros v Hv. apply Qle_antisym; [apply Hle | apply Hscore]; exact Hv. }
    exists [], first, others, 0. simpl.
    split; [reflexivity |].
    split; [intros v [] |].
    split.
    { intros v Hv. rewrite (Hzero v), (Hzero first); simpl; auto.
      apply Qle_refl. }
    split; [symmetry; apply Hzero; left; reflexivity |].
    split; [exact Htrace |].
    split; [| intros _; exact Hout].
    intro Hge. rewrite (Hzero first) in Hge by (left; reflexivity).
    exfalso. revert Hge. unfold Qle, CONFIDENCE_THRESHOLD. simpl. lia.
  - rewrite Heq in Hout. simpl in Hout.
    exists before, winner, after, (score winner).
    rewrite <- Hsplit.
    split; [reflexivity |].
    split; [exact Hb |].
    split; [exact Ha |].
    split; [apply Qeq_refl |].
    split; [exact Htrace |].
    split.
    + intro Hge. rewrite Hout.
      apply Qgeb_true in Hge. rewrite Hge. reflexivity.
    + intro Hlow. rewrite Hout.
      destruct (Qgeb (score winner) CONFIDENCE_THRESHOLD) eqn:E;
        [| reflexivity].
      apply Qgeb_true in E. exfalso. exact (Qlt_not_le _ _ Hlow E).
Qed.

Lemma identify_returns_first_global_maximum_witness :
  exists before winner after confidence,
    active_templates (voters example_population) = before ++ winner :: after
    /\ (forall v, In v before -> sample_score v < sample_score winner)
    /\ (forall v, In v after -> sample_score v <= sample_score winner)
    /\ confidence == sample_score winner
    /\ compared
         (trace (run sample_env (authenticate sample_env probe_request)
                   example_population))
       = comparisons [1] (before ++ winner :: after)
    /\ (CONFIDENCE_THRESHOLD <= sample_score winner ->
        outcome (run sample_env (authenticate sample_env probe_request)
                   example_population)
        = Returned
            (mkResponse 200
               (AuthenticatedBody "Authentication successful"
                  (mkVoterView (Voter.id winner) (Voter.name winner)
                     (Voter.email winner))
                  confidence)))
    /\ (sample_score winner < CONFIDENCE_THRESHOLD ->
        outcome (run sample_env (authenticate sample_env probe_request)
                   example_population)
        = Returned
            (mkResponse 401
               (AuthenticationFailedBody "Authentication failed"
                  confidence))).
Proof.
  apply (identify_returns_first_global_maximum sample_env probe_request
           example_population "img" (mkExtract true [1] "") sample_score);
    try reflexivity.
  - discriminate.
  - intros v [<- | [<- | [<- | []]]]; split; try reflexivity;
      unfold Qle; simpl; lia.
Defined.

(** The spec's example: A is returned with confidence 0.92. *)
Example identify_example_population :
  outcome (run sample_env (authenticate sample_env probe_request)
             example_population)
  = Returned
      (mkResponse 200
         (AuthenticatedBody "Authentication successful"
            (mkVoterView "A" "A" "a@example.org") (92 # 100))).
Proof. reflexivity. Qed.

(** What is sent to the face service during [/api/authenticate] is what the
    scan of the snapshot sends. *)
Lemma authenticate_compared env req w :
  let r := run env (authenticate env req) w in
  compared (trace r) = []
  \/ exists probe,
       compared (trace r)
       = compared (trace (run env (scan probe (voters w) None 0) w)).
Proof.
  intro r. subst r. unfold authenticate.
  destruct (validate_authentication env (req_body req)) as [details | faceData];
    simpl; [left; reflexivity |].
  destruct (extract_features env faceData) as [faceResponse | e]; simpl.
  2: { destruct (run_service_catch env e w) as [resp ->]. left. reflexivity. }
  destruct (extract_success faceResponse); simpl; [| left; reflexivity].
  unfold with_ref.
  destruct (db_rejects env RefVoters) as [e |]; simpl.
  { destruct (run_service_catch env e w) as [resp ->]. left. reflexivity. }
  right. exists (extract_faceEncoding faceResponse).
  rewrite run_try_catch_bind.
  pose proof (scan_final env (extract_faceEncoding faceResponse) (voters w)
                None 0 w) as Hfinal.
  destruct (run env (scan (extract_faceEncoding faceResponse) (voters w) None 0) w)
    as [out wf t]. simpl in *. subst wf.
  destruct out as [[bestMatch bestConfidence] | e]; simpl.
  - unfold with_ref.
    destruct (db_rejects env RefAuthenticationLogs) as [e |]; simpl.
    + destruct (run_service_catch env e w) as [resp ->]. simpl.
      rewrite compared_app. simpl. apply app_nil_r.
    + destruct (Qgeb bestConfidence CONFIDENCE_THRESHOLD), bestMatch; simpl;
        rewrite ?compared_app; simpl; rewrite ?app_nil_r; reflexivity.
  - destruct (run_service_catch env e w) as [resp ->]. simpl.
    rewrite app_nil_r. reflexivity.
Qed.

(** Whatever the collaborators do, [/api/authenticate] sends the face
    service nothing but encodings of templates that are active in the
    snapshot. *)
Lemma authenticate_compares_active_only env req w probe stored :
  In (probe, stored)
    (compared (trace (run env (authenticate env req) w))) ->
  exists v, In v (active_templates (voters w))
            /\ stored = Voter.faceEncoding v.
Proof.
  intro Hin.
  destruct (authenticate_compared env req w) as [Hnil | [probe' Heq]].
  - rewrite Hnil in Hin. destruct Hin.
  - rewrite Heq in Hin.
    apply scan_compares_active_only in Hin.
    destruct Hin as (v & Hv & Hpair). injection Hpair as _ ->. eauto.
Qed.

(** C6: while no template is active, [/api/authenticate] never calls
    [/compare-faces], whatever else happens; and when the request is valid, a
    face is extracted and the database answers, the response is the failed
    authentication with confidence 0. *)
Theorem identify_empty_population env req w :
  active_templates (voters w) = [] ->
  let r := run env (authenticate env req) w in
  compared (trace r) = []
  /\ forall faceData faceResponse,
       validate_authentication env (req_body req) = inr faceData ->
       extract_features env faceData = Fulfilled faceResponse ->
       extract_success faceResponse = true ->
       db_rejects env RefVoters = None ->
       db_rejects env RefAuthenticationLogs = None ->
       outcome r
       = Returned
           (mkResponse 401
              (AuthenticationFailedBody "Authentication failed" 0)).
Proof.
  intros Hempty r. split.
  - destruct (compared (trace r)) as [| [probe stored] rest] eqn:Hc;
      [reflexivity |].
    destruct (authenticate_compares_active_only env req w probe stored)
      as (v & Hv & _).
    + fold r. rewrite Hc. left. reflexivity.
    + rewrite Hempty in Hv. destruct Hv.
  - intros faceData faceResponse Hval Hext Hok Hdb Hlog.
    destruct (authenticate_scored env req w faceData faceResponse
                (fun _ => 0) Hval Hext Hok Hdb Hlog) as [_ Hout].
    + intros v Hv. rewrite Hempty in Hv. destruct Hv.
    + fold r in Hout. rewrite Hempty in Hout. exact Hout.
Qed.

Lemma identify_empty_population_witness :
  compared
    (trace (run sample_env (authenticate sample_env probe_request)
              revoked_only)) = []
  /\ outcome (run sample_env (authenticate sample_env probe_request)
                revoked_only)
     = Returned
         (mkResponse 401 (AuthenticationFailedBody "Authentication failed" 0)).
Proof.
  destruct (identify_empty_population sample_env probe_request revoked_only
              eq_refl) as [Hnone Hout].
  split; [exact Hnone |].
  apply (Hout "img" (mkExtract true [1] "")); reflexivity.
Defined.

(** ** The attempt record *)

Lemma scan_null_iff_zero env probe entries :
  forall bm bc w,
    null_iff_zero (bm, bc) ->
    match outcome (run env (scan probe entries bm bc) w) with
    | Returned best => null_iff_zero best
    | Uncaught _ => True
    end.
Proof.
  induction entries as [| [voterId voter] rest IH]; intros bm bc w Hinv; simpl.
  - exact Hinv.
  - case_active voter; [| apply IH; exact Hinv].
    destruct (compare_faces env probe (Voter.faceEncoding voter)) as [c | e];
      simpl; [| exact I].
    destruct (compare_success c); simpl; [| apply IH; exact Hinv].
    destruct (Qgtb (compare_confidence c) bc) eqn:E; [| apply IH; exact Hinv].
    apply IH. right. simpl. split; [discriminate |].
    apply Qgtb_true in E.
    destruct Hinv as [[_ Hz] | [_ Hpos]]; simpl in *.
    + rewrite Hz in E. exact E.
    + eapply Qlt_trans; eassumption.
Qed.

(** [/api/authenticate] leaves the templates and the registration log alone
    and either leaves the attempt log alone or appends the one record of a
    finished scan. *)
Lemma authenticate_effect env req w :
  let r := run env (authenticate env req) w in
  voters (final r) = voters w
  /\ registration_logs (final r) = registration_logs w
  /\ (authentication_logs (final r) = authentication_logs w
      \/ exists best,
           null_iff_zero best
           /\ authentication_logs (final r)
              = authentication_logs w
                ++ [(push_id env (pushes w),
                     attempt_of req best (server_time w))]).
Proof.
  intro r. subst r. unfold authenticate.
  destruct (validate_authentication env (req_body req)) as [details | faceData];
    simpl; [auto |].
  destruct (extract_features env faceData) as [faceResponse | e]; simpl.
  2: { destruct (run_service_catch env e w) as [resp ->]. auto. }
  destruct (extract_success faceResponse); simpl; [| auto].
  unfold with_ref.
  destruct (db_rejects env RefVoters) as [e |]; simpl.
  { destruct (run_service_catch env e w) as [resp ->]. auto. }
  rewrite run_try_catch_bind.
  pose proof (scan_final env (extract_faceEncoding faceResponse) (voters w)
                None 0 w) as Hfinal.
  pose proof (scan_null_iff_zero env (extract_faceEncoding faceResponse)
                (voters w) None 0 w (or_introl (conj eq_refl eq_refl)))
    as Hinv.
  destruct (run env (scan (extract_faceEncoding faceResponse) (voters w) None 0) w)
    as [out wf t]. simpl in *. subst wf.
  destruct out as [[bestMatch bestConfidence] | e]; simpl.
  - unfold with_ref.
    destruct (db_rejects env RefAuthenticationLogs) as [e |]; simpl.
    + destruct (run_service_catch env e w) as [resp ->]. simpl. auto.
    + destruct (Qgeb bestConfidence CONFIDENCE_THRESHOLD) eqn:E, bestMatch;
        simpl; try (destruct (run_service_catch env null_dereference
               (mkWorld (voters w) (registration_logs w)
                  (authentication_logs w ++
                   [(push_id env (pushes w),
                     AuthLog.mk (server_time w) None None "success"
                       bestConfidence (req_ip req))])
                  (S (pushes w)) (server_time w))) as [resp ->]; simpl);
        (split; [reflexivity | split; [reflexivity |]]);
        right; eexists (_, bestConfidence); (split; [exact Hinv |]);
        unfold attempt_of; simpl; rewrite E; reflexivity.
  - destruct (run_service_catch env e w) as [resp ->]. simpl. auto.
Qed.

Lemma skipn_exact {A : Type} (l new : list A) :
  skipn (List.length l) (l ++ new) = new.
Proof.
  induction l as [| x l IH]; simpl; [reflexivity | exact IH].
Qed.




Example near_miss_record :
  appended_attempts near_miss
    (run sample_env (authenticate sample_env probe_request) near_miss)
  = [("A", AuthLog.mk 5000 (Some "A") (Some "A") "failed" (70 # 100)
             "10.0.0.7")].
Proof. reflexivity. Qed.

(** ** Failures of the face service during the scan *)

(** The run of [/api/authenticate] when the call for an active template is
    rejected after the templates before it were answered. *)
Lemma authenticate_rejected env req w faceData faceResponse answer
  before v after e :
  validate_authentication env (req_body req) = inr faceData ->
  extract_features env faceData = Fulfilled faceResponse ->
  extract_success faceResponse = true ->
  db_rejects env RefVoters = None ->
  active_templates (voters w) = before ++ v :: after ->
  (forall u, In u before ->
     compare_faces env (extract_faceEncoding faceResponse)
       (Voter.faceEncoding u)
     = Fulfilled (answer u)) ->
  compare_faces env (extract_faceEncoding faceResponse) (Voter.faceEncoding v)
  = Rejected e ->
  let r := run env (authenticate env req) w in
  compared (trace r)
  = comparisons (extract_faceEncoding faceResponse) (before ++ [v])
  /\ final r = w
  /\ outcome r = Returned (service_failure e).
Proof.
  intros Hval Hext Hok Hdb Hsplit Hans Hrej r.
  subst r. unfold authenticate. rewrite Hval. simpl.
  rewrite Hext. simpl. rewrite Hok. simpl.
  unfold with_ref. rewrite Hdb. simpl.
  rewrite run_try_catch_bind,
    (scan_rejected env _ answer e (voters w) before v after Hsplit Hans Hrej).
  simpl. rewrite run_service_catch_eq. simpl.
  rewrite app_nil_r, compared_comparison_calls. repeat split.
Qed.

(** C3, as the code behaves: a template whose comparison comes back with
    [success: false] is skipped and the scan goes on, so that when every
    call is answered all active templates are compared, one attempt is
    written and the response is the verdict on the best of the templates
    that answered [success: true] (a 401 with confidence 0 when none did);
    but a call that is rejected ends the scan on the spot: the templates
    after it are not compared, no attempt is written, and the response is
    503 for [ECONNREFUSED] and 500 otherwise. *)
Theorem oracle_failure_skips_or_aborts env req w faceData faceResponse answer :
  validate_authentication env (req_body req) = inr faceData ->
  extract_features env faceData = Fulfilled faceResponse ->
  extract_success faceResponse = true ->
  db_rejects env RefVoters = None ->
  db_rejects env RefAuthenticationLogs = None ->
  let probe := extract_faceEncoding faceResponse in
  let r := run env (authenticate env req) w in
  let vs := active_templates (voters w) in
  ((forall v, In v vs ->
      compare_faces env probe (Voter.faceEncoding v) = Fulfilled (answer v)) ->
   let best :=
     best_of (fun v => compare_confidence (answer v)) (answered_ok answer vs)
       None 0 in
   compared (trace r) = comparisons probe vs
   /\ appended_attempts w r
      = [(push_id env (pushes w), attempt_of req best (server_time w))]
   /\ outcome r = Returned (verdict best)
   /\ (answered_ok answer vs = [] ->
       outcome r
       = Returned
           (mkResponse 401
              (AuthenticationFailedBody "Authentication failed" 0))))
  /\ (forall before v after e,
        vs = before ++ v :: after ->
        (forall u, In u before ->
           compare_faces env probe (Voter.faceEncoding u)
           = Fulfilled (answer u)) ->
        compare_faces env probe (Voter.faceEncoding v) = Rejected e ->
        compared (trace r) = comparisons probe (before ++ [v])
        /\ appended_attempts w r = []
        /\ outcome r = Returned (service_failure e)).
Proof.
  intros Hval Hext Hok Hdb Hlog probe r vs. split.
  - intros Hans best.
    destruct (authenticate_answered env req w faceData faceResponse answer
                Hval Hext Hok Hdb Hlog Hans) as (Htrace & Hlogs & Hout).
    fold r in Htrace, Hlogs, Hout. fold probe in Htrace.
    split; [exact Htrace |].
    split; [unfold appended_attempts; rewrite Hlogs; apply skipn_exact |].
    split; [exact Hout |].
    intro Hnone. rewrite Hout. fold vs. rewrite Hnone. reflexivity.
  - intros before v after e Hsplit Hans Hrej.
    destruct (authenticate_rejected env req w faceData faceResponse answer
                before v after e Hval Hext Hok Hdb Hsplit Hans Hrej)
      as (Htrace & Hfinal & Hout).
    fold r in Htrace, Hfinal, Hout.
    split; [exact Htrace |].
    split; [| exact Hout].
    unfold appended_attempts. rewrite Hfinal. apply skipn_all.
Qed.

Lemma oracle_failure_skips_or_aborts_witness :
  (compared
     (trace (run sample_env (authenticate sample_env probe_request)
               unanswered_population))
   = comparisons [1] (active_templates (voters unanswered_population))
   /\ outcome (run sample_env (authenticate sample_env probe_request)
                 unanswered_population)
      = Returned
          (mkResponse 401
             (AuthenticationFailedBody "Authentication failed" 0)))
  /\ (compared
        (trace (run sample_env (authenticate sample_env probe_request)
                  flaky_population))
      = [([1], [])]
      /\ appended_attempts flaky_population
           (run sample_env (authenticate sample_env probe_request)
              flaky_population) = []
      /\ outcome (run sample_env (authenticate sample_env probe_request)
                    flaky_population)
         = Returned (service_failure refused)).
Proof.
  split.
  - destruct (oracle_failure_skips_or_aborts sample_env probe_request
                unanswered_population "img" (mkExtract true [1] "")
                sample_answer eq_refl eq_refl eq_refl eq_refl eq_refl)
      as [Hskip _].
    destruct Hskip as (Htrace & _ & _ & Hout).
    + intros v [<- | [<- | []]]; reflexivity.
    + split; [exact Htrace | apply Hout; reflexivity].
  - destruct (oracle_failure_skips_or_aborts sample_env probe_request
                flaky_population "img" (mkExtract true [1] "")
                sample_answer eq_refl eq_refl eq_refl eq_refl eq_refl)
      as [_ Habort].
    apply (Habort [] (snd (template "A" "a@example.org" [] "active"))
             [snd (template "B" "b@example.org" [92 # 100] "active")]
             refused).
    + reflexivity.
    + intros u [].
    + reflexivity.
Defined.

(** C3 as stated fails: the service cannot be reached for the first
    template, the second would score 0.92, and yet the second is never
    compared and the call ends in a 503. *)
Lemma tolerates_oracle_failures_counterexample :
  ~ tolerates_oracle_failures sample_env probe_request flaky_population [1].
Proof.
  intros [Hall _]. vm_compute in Hall. discriminate Hall.
Qed.

(** When every comparison answers [success: false] the call does not fail:
    it is a failed authentication and its attempt is recorded. *)
Example unanswered_population_is_logged :
  let r := run sample_env (authenticate sample_env probe_request)
             unanswered_population in
  outcome r
  = Returned
      (mkResponse 401 (AuthenticationFailedBody "Authentication failed" 0))
  /\ appended_attempts unanswered_population r
     = [("A", AuthLog.mk 5000 None None "failed" 0 "10.0.0.7")].
Proof. split; reflexivity. Qed.

(** ** Registration *)

Lemma snapshot_exists_filter {A : Type} (f : A -> bool) (l : list A) x :
  In x l -> f x = true -> snapshot_exists (filter f l) = true.
Proof.
  induction l as [| y l IH]; simpl; [intros [] |].
  intros [-> | Hin] Hf.
  - rewrite Hf. reflexivity.
  - destruct (f y); [reflexivity | auto].
Qed.

(** A valid registration whose email is stored already is turned away
    before anything is written. *)
Lemma register_conflict env req voterId registrationDate w value :
  validate_registration env (req_body req) = inr value ->
  db_rejects env RefVoters = None ->
  (exists c, In c (voters w) /\ Voter.email (snd c) = reg_email value) ->
  let r := run env (register env req voterId registrationDate) w in
  outcome r = Returned (mkResponse 409 (ErrorBody "Email already registered"))
  /\ final r = w.
Proof.
  intros Hval Hdb (c & Hin & Hemail) r. subst r.
  unfold register. rewrite Hval. simpl.
  unfold with_ref. rewrite Hdb. simpl.
  rewrite (snapshot_exists_filter _ _ c Hin)
    by (apply String.eqb_eq; exact Hemail).
  simpl. split; reflexivity.
Qed.

(** C5: a valid [/api/register] whose email is already stored under any
    template, whatever its status, is answered 409 and creates nothing: the
    templates, the registration log and the attempt log are exactly as they
    were. *)
Theorem register_duplicate_contact env req voterId registrationDate w value :
  validate_registration env (req_body req) = inr value ->
  db_rejects env RefVoters = None ->
  (exists c, In c (voters w) /\ Voter.email (snd c) = reg_email value) ->
  let r := run env (register env req voterId registrationDate) w in
  outcome r = Returned (mkResponse 409 (ErrorBody "Email already registered"))
  /\ voters (final r) = voters w
  /\ registration_logs (final r) = registration_logs w
  /\ authentication_logs (final r) = authentication_logs w.
Proof.
  intros Hval Hdb Hstored r.
  destruct (register_conflict env req voterId registrationDate w value
              Hval Hdb Hstored) as [Hout Hfinal].
  fold r in Hout, Hfinal. rewrite Hfinal. auto.
Qed.

Lemma register_duplicate_contact_witness :
  let w := world_of [template "R" "ada@example.org" [99 # 100] "revoked"] in
  let r := run sample_env (register sample_env ada_request "uuid-1" "now") w in
  outcome r = Returned (mkResponse 409 (ErrorBody "Email already registered"))
  /\ voters (final r) = voters w
  /\ registration_logs (final r) = registration_logs w
  /\ authentication_logs (final r) = authentication_logs w.
Proof.
  apply (register_duplicate_contact sample_env ada_request "uuid-1" "now"
           (world_of [template "R" "ada@example.org" [99 # 100] "revoked"])
           (mkRegistration "Ada" "ada@example.org" "img")).
  - reflexivity.
  - reflexivity.
  - eexists. split; [left; reflexivity | reflexivity].
Defined.

(** ** Failures of the audit log *)

(** The scan depends on the deployment only through the face service. *)
Lemma scan_same_service env env' probe entries :
  compare_faces env' = compare_faces env ->
  forall bm bc w,
    run env' (scan probe entries bm bc) w = run env (scan probe entries bm bc) w.
Proof.
  intro Hsame.
  induction entries as [| [voterId voter] rest IH]; intros bm bc w; simpl.
  - reflexivity.
  - case_active voter; [| apply IH].
    rewrite Hsame.
    destruct (compare_faces env probe (Voter.faceEncoding voter)) as [c | e];
      simpl; [| reflexivity].
    destruct (compare_success c && Qgtb (compare_confidence c) bc);
      rewrite IH; reflexivity.
Qed.

Ltac not_that_status e0 :=
  rewrite ?run_service_catch_eq; simpl; unfold service_failure;
  destruct (has_code e0 "ECONNREFUSED"); simpl;
  first [ discriminate | intros [? | ?]; discriminate ].

(** C4, as the code behaves: the audit append is awaited inside the
    handler's [try] block, so when [/registration_logs] rejects the append
    of a registration that would otherwise have been answered 201, the
    caller gets the [catch] block's error response although the template is
    stored as in the successful run (it is not rolled back); and when
    [/authentication_logs] rejects the append of an attempt that would
    otherwise have been answered 200 or 401, the caller gets that error
    response too. *)
Theorem audit_log_failure_reaches_caller env w e :
  let env' := with_working_logs env in
  (forall req voterId registrationDate,
     db_rejects env RefRegistrationLogs = Some e ->
     status_of
       (outcome (run env' (register env' req voterId registrationDate) w))
     = 201%nat ->
     let r := run env (register env req voterId registrationDate) w in
     outcome r = Returned (service_failure e)
     /\ voters (final r)
        = voters
            (final (run env' (register env' req voterId registrationDate) w))
     /\ registration_logs (final r) = registration_logs w)
  /\ (forall req,
        db_rejects env RefAuthenticationLogs = Some e ->
        status_of (outcome (run env' (authenticate env' req) w)) = 200%nat
        \/ status_of (outcome (run env' (authenticate env' req) w)) = 401%nat ->
        let r := run env (authenticate env req) w in
        outcome r = Returned (service_failure e)
        /\ authentication_logs (final r) = authentication_logs w).
Proof.
  intro env'. split.
  - intros req voterId registrationDate Hlog. subst env'.
    unfold register. simpl.
    destruct (validate_registration env (req_body req)) as [details | value];
      simpl; [discriminate |].
    unfold with_ref. simpl.
    destruct (db_rejects env RefVoters) as [e0 |]; simpl.
    { not_that_status e0. }
    destruct (snapshot_exists _); simpl; [discriminate |].
    destruct (extract_features env (reg_faceData value)) as [faceResponse | e0];
      simpl.
    2: { not_that_status e0. }
    destruct (extract_success faceResponse); simpl; [| discriminate].
    unfold with_ref. simpl.
    destruct (db_rejects env (RefVoter voterId)) as [e0 |]; simpl.
    { not_that_status e0. }
    unfold with_ref. simpl. rewrite Hlog. simpl.
    intros _. repeat split.
  - intros req Hlog. subst env'.
    unfold authenticate. simpl.
    destruct (validate_authentication env (req_body req)) as [details | faceData];
      simpl; [intros [? | ?]; discriminate |].
    destruct (extract_features env faceData) as [faceResponse | e0]; simpl.
    2: { not_that_status e0. }
    destruct (extract_success faceResponse); simpl;
      [| intros [? | ?]; discriminate].
    unfold with_ref. simpl.
    destruct (db_rejects env RefVoters) as [e0 |]; simpl.
    { not_that_status e0. }
    rewrite !run_try_catch_bind.
    rewrite (scan_same_service env (with_working_logs env)) by reflexivity.
    pose proof (scan_final env (extract_faceEncoding faceResponse) (voters w)
                  None 0 w) as Hfinal.
    destruct (run env (scan (extract_faceEncoding faceResponse) (voters w) None 0) w)
      as [out wf t]. simpl in *. subst wf.
    destruct out as [[bestMatch bestConfidence] | e0]; simpl.
    + unfold with_ref. simpl. rewrite Hlog. simpl. intros _. repeat split.
    + not_that_status e0.
Qed.

Lemma audit_log_failure_reaches_caller_witness :
  (let r := run logless_env (register logless_env ada_request "uuid-1" "now")
              empty_world in
   outcome r = Returned (service_failure write_failed)
   /\ voters (final r)
      = voters
          (final (run sample_env (register sample_env ada_request "uuid-1" "now")
                    empty_world))
   /\ registration_logs (final r) = [])
  /\ (let r := run logless_env (authenticate logless_env probe_request)
                 example_population in
      outcome r = Returned (service_failure write_failed)
      /\ authentication_logs (final r) = []).
Proof.
  destruct (audit_log_failure_reaches_caller logless_env empty_world
              write_failed) as [Hregister _].
  destruct (audit_log_failure_reaches_caller logless_env example_population
              write_failed) as [_ Hauthenticate].
  split.
  - apply (Hregister ada_request "uuid-1" "now"); reflexivity.
  - apply (Hauthenticate probe_request); [reflexivity | left; reflexivity].
Defined.

(** C4 as stated fails: with the registration log rejecting writes the
    caller of a registration that went through is told 500, not 201. *)
Lemma audit_failure_swallowed_counterexample :
  ~ audit_failure_swallowed logless_env
      (fun env => register env ada_request "uuid-1" "now") empty_world.
Proof.
  unfold audit_failure_swallowed. vm_compute. discriminate.
Qed.

Example logless_registration :
  let r := run logless_env (register logless_env ada_request "uuid-1" "now")
             empty_world in
  outcome r = Returned (mkResponse 500 (ErrorBody "Internal server error"))
  /\ map fst (voters (final r)) = ["uuid-1"]
  /\ registration_logs (final r) = [].
Proof. repeat split. Qed.

(** ** Dashboard statistics *)


Lemma length_lastn {A : Type} (n : nat) (l : list A) :
  (List.length (lastn n l) <= n)%nat.
Proof. unfold lastn. rewrite length_skipn. lia. Qed.





Example busy_day_counts :
  reported_today (outcome (run sample_env (stats 0 sample_now) busy_day))
  = Some 100%nat
  /\ successes_since (start_of_local_day 0 sample_now)
       (authentication_logs busy_day) = 101%nat.
Proof. split; vm_compute; reflexivity. Qed.

(** An attempt stamped exactly at the start of the day is not counted. *)
Example midnight_is_not_today :
  reported_today (outcome (run sample_env (stats 0 sample_now) midnight_only))
  = Some 0%nat
  /\ successes_since (start_of_local_day 0 sample_now)
       (authentication_logs midnight_only) = 1%nat.
Proof. split; vm_compute; reflexivity. Qed.

(** ** Recent attempts *)

Section SortedLists.
Context {A : Type}.

Lemma sorted_skipn (R : A -> A -> Prop) (n : nat) :
  forall l, StronglySorted R l -> StronglySorted R (skipn n l).
Proof.
  induction n as [| n IH]; intros l H; [exact H |].
  destruct l as [| x l]; [constructor |].
  simpl. apply IH. apply StronglySorted_inv in H. tauto.
Qed.

Lemma sorted_snoc (R : A -> A -> Prop) (x : A) :
  forall l, StronglySorted R l -> Forall (fun y => R y x) l ->
            StronglySorted R (l ++ [x]).
Proof.
  induction l as [| y l IH]; intros Hs Hall; simpl.
  - constructor; constructor.
  - apply StronglySorted_inv in Hs. destruct Hs as [Hs Hy].
    inversion Hall; subst.
    constructor; [auto |].
    apply Forall_app. split; [exact Hy | constructor; [assumption | constructor]].
Qed.

Lemma sorted_rev (R : A -> A -> Prop) :
  forall l, StronglySorted R l -> StronglySorted (fun a b => R b a) (rev l).
Proof.
  induction l as [| x l IH]; intro Hs; simpl; [constructor |].
  apply StronglySorted_inv in Hs. destruct Hs as [Hs Hx].
  apply sorted_snoc; [auto |].
  apply Forall_rev. exact Hx.
Qed.

Lemma insert_by_least (rank : A -> Z) (x : A) (l : list A) :
  Forall (fun y => (rank x <= rank y)%Z) l -> insert_by rank x l = x :: l.
Proof.
  destruct l as [| y l]; simpl; [reflexivity |].
  intro H. inversion H; subst.
  destruct (Z.leb_spec (rank x) (rank y)); [reflexivity | lia].
Qed.

(** Sorting a list that is in order already changes nothing. *)
Lemma sort_by_sorted (rank : A -> Z) :
  forall l, StronglySorted (fun a b => (rank a <= rank b)%Z) l ->
            sort_by rank l = l.
Proof.
  induction l as [| x l IH]; intro Hs; [reflexivity |].
  apply StronglySorted_inv in Hs. destruct Hs as [Hs Hx].
  change (sort_by rank (x :: l)) with (insert_by rank x (sort_by rank l)).
  rewrite IH by exact Hs.
  apply insert_by_least. exact Hx.
Qed.

Lemma length_insert_by (rank : A -> Z) (x : A) :
  forall l, List.length (insert_by rank x l) = S (List.length l).
Proof.
  induction l as [| y l IH]; simpl; [reflexivity |].
  destruct (rank x <=? rank y)%Z; simpl; [reflexivity | now rewrite IH].
Qed.

Lemma length_sort_by (rank : A -> Z) :
  forall l, List.length (sort_by rank l) = List.length l.
Proof.
  induction l as [| x l IH]; [reflexivity |].
  change (sort_by rank (x :: l)) with (insert_by rank x (sort_by rank l)).
  rewrite length_insert_by, IH. reflexivity.
Qed.

Lemma number_from_sorted :
  forall (l : list A) i,
    StronglySorted (fun a b => (fst a <= fst b)%Z) (number_from i l)
    /\ Forall (fun c => (i <= fst c)%Z) (number_from i l).
Proof.
  induction l as [| x l IH]; intro i; simpl.
  - split; constructor.
  - destruct (IH (i + 1)%Z) as [Hs Hall].
    assert (Hlater : Forall (fun c : Z * A => (i <= fst c)%Z)
                       (number_from (i + 1) l)).
    { eapply Forall_impl; [| exact Hall]. simpl. intros c Hc. lia. }
    split; constructor; simpl; auto; lia.
Qed.

Lemma map_snd_number_from :
  forall (l : list A) i, map snd (number_from i l) = l.
Proof.
  induction l as [| x l IH]; intro i; simpl; [reflexivity | now rewrite IH].
Qed.

Lemma length_number_from :
  forall (l : list A) i, List.length (number_from i l) = List.length l.
Proof.
  induction l as [| x l IH]; intro i; simpl; [reflexivity | now rewrite IH].
Qed.

End SortedLists.

Lemma number_from_keeps_order {A : Type} (rank : A -> Z) :
  forall (l : list A) i,
    StronglySorted (fun a b => (rank a <= rank b)%Z) l ->
    StronglySorted (fun a b => (rank (snd a) <= rank (snd b))%Z)
      (number_from i l).
Proof.
  induction l as [| x l IH]; intros i Hs; simpl; [constructor |].
  apply StronglySorted_inv in Hs. destruct Hs as [Hs Hx].
  constructor; [apply IH; exact Hs |].
  rewrite <- (map_snd_number_from l (i + 1)) in Hx.
  rewrite Forall_map in Hx. exact Hx.
Qed.

(** On a log stamped in order the query returns the last [n] children. *)
Lemma by_timestamp_limit_to_last_in_order n children :
  stamped_in_order children ->
  by_timestamp_limit_to_last n children = lastn n children.
Proof.
  intro Hs. unfold by_timestamp_limit_to_last.
  rewrite (sort_by_sorted (fun c => AuthLog.timestamp (snd (snd c)))).
  2: { apply (number_from_keeps_order
                (fun c => AuthLog.timestamp (snd c))). exact Hs. }
  rewrite sort_by_sorted.
  2: { unfold lastn. apply sorted_skipn. apply number_from_sorted. }
  unfold lastn. rewrite <- skipn_map, map_snd_number_from, length_number_from.
  reflexivity.
Qed.

Lemma length_by_timestamp_limit_to_last n children :
  (List.length (by_timestamp_limit_to_last n children) <= n)%nat.
Proof.
  unfold by_timestamp_limit_to_last.
  rewrite length_map, length_sort_by. apply length_lastn.
Qed.

Lemma log_views_map entries :
  forall views, log_views entries = inr views -> views = map view_of entries.
Proof.
  induction entries as [| [key log] rest IH]; simpl; intros views H.
  - injection H as <-. reflexivity.
  - destruct (Z.abs (AuthLog.timestamp log) <=? MAX_TIME_VALUE)%Z;
      [| discriminate].
    destruct (log_views rest) as [e | rest_views]; [discriminate |].
    injection H as <-. rewrite (IH rest_views eq_refl). reflexivity.
Qed.

Lemma requested_limit_capped parsed : (requested_limit parsed <= 50)%Z.
Proof. unfold requested_limit. apply Z.le_min_r. Qed.

(** The sequence [/api/dashboard/logs] returns, when it returns one. *)
Lemma logs_returned env req w views :
  outcome (run env (logs req) w) = Returned (mkResponse 200 (LogsBody views)) ->
  (0 < requested_limit (req_limit req))%Z
  /\ views
     = rev (map view_of
              (by_timestamp_limit_to_last
                 (Z.to_nat (requested_limit (req_limit req)))
                 (authentication_logs w))).
Proof.
  unfold logs. simpl.
  destruct (Z.leb_spec (requested_limit (req_limit req)) 0); simpl;
    [discriminate |].
  unfold with_ref.
  destruct (db_rejects env RefAuthenticationLogs); simpl; [discriminate |].
  destruct (log_views _) as [e | listed] eqn:Hviews; simpl; [discriminate |].
  intro Hret. injection Hret as <-.
  rewrite (log_views_map _ _ Hviews). split; [assumption | reflexivity].
Qed.

(** Whatever limit is requested, the effective limit is at most 50 and a
    sequence returned by [/api/dashboard/logs] has at most 50 elements. *)
Lemma recent_attempts_capped env req w views :
  outcome (run env (logs req) w) = Returned (mkResponse 200 (LogsBody views)) ->
  (requested_limit (req_limit req) <= 50)%Z /\ (List.length views <= 50)%nat.
Proof.
  intro Hret. apply logs_returned in Hret. destruct Hret as [Hpos ->].
  pose proof (requested_limit_capped (req_limit req)) as Hcap.
  split; [exact Hcap |].
  rewrite length_rev, length_map.
  pose proof (length_by_timestamp_limit_to_last
                (Z.to_nat (requested_limit (req_limit req)))
                (authentication_logs w)).
  lia.
Qed.

(** Over a log stamped in key order, as pushes stamped by one clock that
    never goes back make it, the returned sequence is in descending order
    of timestamp. *)
Lemma recent_attempts_in_order env req w views :
  outcome (run env (logs req) w) = Returned (mkResponse 200 (LogsBody views)) ->
  stamped_in_order (authentication_logs w) -> newest_first views.
Proof.
  intro Hret. apply logs_returned in Hret. destruct Hret as [Hpos ->].
  intro Hs. rewrite by_timestamp_limit_to_last_in_order by exact Hs.
  unfold newest_first.
  apply (sorted_rev (fun a b => (log_timestamp a <= log_timestamp b)%Z)).
  unfold lastn.
  apply (sorted_skipn _
           (List.length (authentication_logs w)
            - Z.to_nat (requested_limit (req_limit req)))) in Hs.
  revert Hs.
  generalize (skipn (List.length (authentication_logs w)
                     - Z.to_nat (requested_limit (req_limit req)))
                (authentication_logs w)).
  induction l as [| x l IH]; intro Hs; simpl; [constructor |].
  apply StronglySorted_inv in Hs. destruct Hs as [Hs Hx].
  constructor; [auto |].
  rewrite Forall_map. exact Hx.
Qed.

(** C8: the order fails on the code.  Over the log [A: 300, B: 100, C: 200]
    the query for the 2 most recent attempts selects the two greatest
    timestamps, those of [C] and [A], but [snapshot.val()] lists them in
    key order and [reverse()] turns that into [C] (200) before [A] (300):
    the handler answers 200 with a sequence that is not most recent
    first.  The cap holds there as everywhere: two elements for a limit
    of 2. *)
Theorem recent_attempts_not_newest_first :
  let r := run sample_env (logs (limit_request (Some 2%Z))) shuffled_attempts in
  outcome r
  = Returned
      (mkResponse 200
         (LogsBody [view_of (success_at 2 200); view_of (success_at 0 300)]))
  /\ map log_timestamp [view_of (success_at 2 200); view_of (success_at 0 300)]
     = [200; 300]%Z
  /\ ~ newest_first [view_of (success_at 2 200); view_of (success_at 0 300)].
Proof.
  split; [reflexivity |]. split; [reflexivity |].
  unfold newest_first. intro Hsorted.
  apply StronglySorted_inv in Hsorted. destruct Hsorted as [_ Hhead].
  inversion Hhead as [| x l Hle _]; subst. simpl in Hle. lia.
Qed.

(** The handlers themselves produce such a log when the server clock steps
    back between attempts: three identifications arriving at the instants
    300, 100 and 200 leave the log [A: 300, B: 100, C: 200]. *)
Example clock_stepping_back_shuffles_the_log :
  map (fun entry => (fst entry, AuthLog.timestamp (snd entry)))
    (authentication_logs
       (served sample_env
          [(300%Z, PostAuthenticate probe_request);
           (100%Z, PostAuthenticate probe_request);
           (200%Z, PostAuthenticate probe_request)]
          near_miss))
  = [("A", 300%Z); ("B", 100%Z); ("C", 200%Z)].
Proof. reflexivity. Qed.

(** A huge request is cut to 50 and a non-positive one is refused. *)
Example requested_limits :
  requested_limit (Some 1000%Z) = 50%Z
  /\ requested_limit None = 10%Z
  /\ requested_limit (Some 0%Z) = 10%Z
  /\ outcome (run sample_env (logs (limit_request (Some (-5)%Z)))
                three_attempts)
     = Returned
         (mkResponse 500 (ErrorBody "Failed to fetch authentication logs")).
Proof. repeat split. Qed.

(** The server clock never runs behind the log: each new attempt is stamped
    no earlier than the ones before, so the log stays in order. *)
Lemma authenticate_keeps_log_in_order env req w :
  stamped_in_order (authentication_logs w) ->
  Forall (fun entry => (AuthLog.timestamp (snd entry) <= server_time w)%Z)
    (authentication_logs w) ->
  stamped_in_order
    (authentication_logs (final (run env (authenticate env req) w))).
Proof.
  intros Hs Hclock.
  destruct (authenticate_effect env req w)
    as (_ & _ & [-> | (best & _ & ->)]); [exact Hs |].
  apply sorted_snoc; assumption.
Qed.

(** ** What each handler does to the database *)

Lemma register_effect env req voterId registrationDate w :
  let r := run env (register env req voterId registrationDate) w in
  authentication_logs (final r) = authentication_logs w
  /\ (voters (final r) = voters w
      \/ exists value faceResponse,
           validate_registration env (req_body req) = inr value
           /\ filter (fun c => Voter.email (snd c) =? reg_email value)
                (voters w) = []
           /\ voters (final r)
              = set_child voterId
                  (Voter.mk voterId (reg_name value) (reg_email value)
                     registrationDate (extract_faceEncoding faceResponse)
                     "active" (server_time w))
                  (voters w)).
Proof.
  intro r. subst r. unfold register.
  destruct (validate_registration env (req_body req)) as [details | value];
    simpl; [auto |].
  unfold with_ref.
  destruct (db_rejects env RefVoters) as [e |]; simpl; [auto |].
  destruct (filter _ (voters w)) as [| c found] eqn:Hfound; simpl; [| auto].
  destruct (extract_features env (reg_faceData value)) as [faceResponse | e];
    simpl; [| auto].
  destruct (extract_success faceResponse); simpl; [| auto].
  unfold with_ref.
  destruct (db_rejects env (RefVoter voterId)) as [e |]; simpl; [auto |].
  unfold with_ref.
  destruct (db_rejects env RefRegistrationLogs) as [e |]; simpl;
    (split; [reflexivity |]); right; exists value, faceResponse; auto.
Qed.

Lemma stats_effect env tzOffset now w :
  final (run env (stats tzOffset now) w) = w.
Proof.
  unfold stats. simpl. unfold with_ref.
  destruct (db_rejects env RefVoters); simpl; [reflexivity |].
  unfold with_ref.
  destruct (db_rejects env RefAuthenticationLogs); reflexivity.
Qed.

Lemma logs_effect env req w : final (run env (logs req) w) = w.
Proof.
  unfold logs. simpl.
  destruct (requested_limit (req_limit req) <=? 0)%Z; simpl; [reflexivity |].
  unfold with_ref.
  destruct (db_rejects env RefAuthenticationLogs); simpl; [reflexivity |].
  destruct (log_views _); reflexivity.
Qed.

(** ** Revocation *)

Lemma in_set_child_other {A : Type} (key id : string) (x v : A) :
  key <> id ->
  forall children,
    In (id, v) (set_child key x children) -> In (id, v) children.
Proof.
  intro Hne.
  induction children as [| [k y] rest IH]; simpl.
  - intros [H | []]. congruence.
  - destruct (String.compare key k); simpl.
    + intros [H | H]; [congruence | auto].
    + intros [H | H]; [congruence | exact H].
    + intros [H | H]; auto.
Qed.

Lemma revoke_child_inactive id :
  forall children revoked,
    NoDup (map fst children) ->
    revoke_child id children = Some revoked ->
    forall v, In (id, v) revoked -> is_active v = false.
Proof.
  induction children as [| [k x] rest IH]; simpl; intros revoked Hkeys Hrev v Hin.
  - discriminate.
  - inversion Hkeys as [| ? ? Hfresh Hrest]; subst.
    destruct (String.eqb_spec k id) as [-> | Hne].
    + injection Hrev as <-. destruct Hin as [Hhead | Hlater].
      * injection Hhead as <-. reflexivity.
      * exfalso. apply Hfresh. apply (in_map fst) in Hlater. exact Hlater.
    + destruct (revoke_child id rest) as [rest' |] eqn:Hrest'; [| discriminate].
      injection Hrev as <-. destruct Hin as [Hhead | Hlater].
      * congruence.
      * eapply IH; eauto.
Qed.

(** A handler run keeps an inactive template inactive and only ever adds to
    the attempt log. *)
Lemma handle_keeps_revocation env id i w :
  spares_key id i ->
  inactive_at id w ->
  let w' := final (run env (handle env i) w) in
  inactive_at id w'
  /\ exists newer,
       authentication_logs w' = authentication_logs w ++ newer.
Proof.
  intros Hspare Hinactive.
  destruct i as [req voterId registrationDate | req | tzOffset now | req];
    cbn [handle spares_key] in *.
  - destruct (register_effect env req voterId registrationDate w)
      as [Hlogs [Hsame | (value & faceResponse & _ & _ & Hset)]].
    + split; [| exists []; rewrite Hlogs, app_nil_r; reflexivity].
      unfold inactive_at. rewrite Hsame. exact Hinactive.
    + split; [| exists []; rewrite Hlogs, app_nil_r; reflexivity].
      unfold inactive_at. rewrite Hset. intros v Hin.
      apply Hinactive. eapply in_set_child_other; eassumption.
  - destruct (authenticate_effect env req w)
      as (Hvoters & _ & [Hsame | (best & _ & Hadd)]).
    + split; [| exists []; rewrite Hsame, app_nil_r; reflexivity].
      unfold inactive_at. rewrite Hvoters. exact Hinactive.
    + split; [| eexists; exact Hadd].
      unfold inactive_at. rewrite Hvoters. exact Hinactive.
  - rewrite stats_effect. split; [exact Hinactive |].
    exists []. rewrite app_nil_r. reflexivity.
  - rewrite logs_effect. split; [exact Hinactive |].
    exists []. rewrite app_nil_r. reflexivity.
Qed.

Lemma served_keeps_revocation env id incoming :
  Forall (fun arrival => spares_key id (snd arrival)) incoming ->
  forall w,
    inactive_at id w ->
    inactive_at id (served env incoming w)
    /\ exists newer,
         authentication_logs (served env incoming w)
         = authentication_logs w ++ newer.
Proof.
  induction 1 as [| [t i] incoming Hi _ IH]; intros w Hinactive; simpl.
  - split; [exact Hinactive | exists []; rewrite app_nil_r; reflexivity].
  - destruct (handle_keeps_revocation env id i (at_time t w) Hi Hinactive)
      as [Hnext [newer Hlogs]].
    destruct (IH _ Hnext) as [Hlast [newer' Hlogs']].
    split; [exact Hlast |].
    exists (newer ++ newer'). rewrite Hlogs', Hlogs, app_assoc. reflexivity.
Qed.

(** C9: after [revoke id], whatever requests are then handled (none of them
    registering under the very key [id]), the template stored under [id] is
    in no snapshot of active templates, a later [/api/authenticate] sends
    the face service nothing but encodings of templates of its snapshot,
    and the attempts written before the revocation are still there,
    unchanged, at the head of the log. *)
Theorem revoked_template_leaves_snapshots env id w revoked incoming :
  NoDup (map fst (voters w)) ->
  revoke id w = Some revoked ->
  Forall (fun arrival => spares_key id (snd arrival)) incoming ->
  let later := served env incoming revoked in
  (forall v, In (id, v) (voters later) ->
     ~ In v (active_templates (voters later)))
  /\ (forall req probe stored,
        In (probe, stored)
          (compared (trace (run env (authenticate env req) later))) ->
        exists v, In v (active_templates (voters later))
                  /\ stored = Voter.faceEncoding v)
  /\ (exists newer,
        authentication_logs later = authentication_logs w ++ newer).
Proof.
  intros Hkeys Hrevoke Hspare later.
  unfold revoke in Hrevoke.
  destruct (revoke_child id (voters w)) as [children |] eqn:Hchildren;
    [| discriminate].
  injection Hrevoke as <-.
  assert (Hinactive :
    inactive_at id
      (mkWorld children (registration_logs w) (authentication_logs w)
         (pushes w) (server_time w))).
  { intros v Hin. simpl in Hin.
    eapply revoke_child_inactive; eassumption. }
  destruct (served_keeps_revocation env id incoming Hspare _ Hinactive)
    as [Hlater Hlogs].
  fold later in Hlater, Hlogs.
  split; [| split].
  - intros v Hin Hactive. unfold active_templates in Hactive.
    apply filter_In in Hactive. destruct Hactive as [_ Hactive].
    rewrite (Hlater v Hin) in Hactive. discriminate.
  - intros req probe stored. apply authenticate_compares_active_only.
  - exact Hlogs.
Qed.

Lemma revoked_template_leaves_snapshots_witness :
  let later :=
    served sample_env
      [(6000%Z, PostAuthenticate probe_request);
       (7000%Z, PostRegister ada_request "uuid-1" "now");
       (8000%Z, PostAuthenticate probe_request)]
      (world_of [template "A" "a@example.org" [92 # 100] "active";
                 template "B" "b@example.org" [95 # 100] "revoked"]) in
  (forall v, In ("B", v) (voters later) ->
     ~ In v (active_templates (voters later)))
  /\ (forall req probe stored,
        In (probe, stored)
          (compared (trace (run sample_env (authenticate sample_env req)
                              later))) ->
        exists v, In v (active_templates (voters later))
                  /\ stored = Voter.faceEncoding v)
  /\ (exists newer,
        authentication_logs later
        = authentication_logs two_templates ++ newer).
Proof.
  apply (revoked_template_leaves_snapshots sample_env "B" two_templates).
  - simpl. repeat constructor; simpl; intuition discriminate.
  - reflexivity.
  - repeat constructor. simpl. discriminate.
Defined.

(** Before the revocation B wins with 0.95; after it A does with 0.92. *)
Example revocation_changes_the_winner :
  outcome (run sample_env (authenticate sample_env probe_request)
             two_templates)
  = Returned
      (mkResponse 200
         (AuthenticatedBody "Authentication successful"
            (mkVoterView "B" "B" "b@example.org") (95 # 100)))
  /\ option_map
       (fun w => outcome (run sample_env (authenticate sample_env probe_request) w))
       (revoke "B" two_templates)
     = Some
         (Returned
            (mkResponse 200
               (AuthenticatedBody "Authentication successful"
                  (mkVoterView "A" "A" "a@example.org") (92 # 100)))).
Proof. split; reflexivity. Qed.

(** ** Uniqueness of contact keys *)

Lemma emails_set_child key x :
  forall children a,
    In a (emails (set_child key x children)) ->
    a = Voter.email x \/ In a (emails children).
Proof.
  induction children as [| [k y] rest IH]; simpl; intros a.
  - intros [<- | []]. left. reflexivity.
  - destruct (String.compare key k); simpl.
    + intros [<- | H]; auto.
    + intros [<- | [<- | H]]; auto.
    + intros [<- | H]; auto. apply IH in H. tauto.
Qed.

Lemma set_child_keeps_emails_unique key x :
  forall children,
    ~ In (Voter.email x) (emails children) ->
    unique_emails children ->
    unique_emails (set_child key x children).
Proof.
  unfold unique_emails.
  induction children as [| [k y] rest IH]; simpl; intros Hfresh Hunique.
  - constructor; [intros [] | constructor].
  - inversion Hunique as [| ? ? Hy Hrest]; subst.
    destruct (String.compare key k); simpl.
    + constructor; [tauto | exact Hrest].
    + constructor; [simpl; tauto | exact Hunique].
    + constructor.
      * intro Hin. apply emails_set_child in Hin.
        destruct Hin as [Heq | Hin]; [| exact (Hy Hin)].
        apply Hfresh. left. exact Heq.
      * apply IH; [tauto | exact Hrest].
Qed.

Lemma no_match_not_in email :
  forall children,
    filter (fun c => Voter.email (snd c) =? email) children = [] ->
    ~ In email (emails children).
Proof.
  induction children as [| c rest IH]; simpl; [tauto |].
  destruct (String.eqb_spec (Voter.email (snd c)) email) as [Heq | Hne];
    [discriminate |].
  intros Hrest [Hhead | Hin]; [exact (Hne Hhead) | exact (IH Hrest Hin)].
Qed.

Lemma handle_keeps_emails_unique env i w :
  unique_emails (voters w) ->
  unique_emails (voters (final (run env (handle env i) w))).
Proof.
  intro Hunique.
  destruct i as [req voterId registrationDate | req | tzOffset now | req];
    cbn [handle].
  - destruct (register_effect env req voterId registrationDate w)
      as [_ [-> | (value & faceResponse & _ & Hnone & ->)]]; [exact Hunique |].
    apply set_child_keeps_emails_unique; [| exact Hunique].
    simpl. apply no_match_not_in. exact Hnone.
  - destruct (authenticate_effect env req w) as (-> & _). exact Hunique.
  - rewrite stats_effect. exact Hunique.
  - rewrite logs_effect. exact Hunique.
Qed.

Lemma set_child_stores_email key x :
  forall children : list (string * Voter.t),
    In (Voter.email x) (emails (set_child key x children)).
Proof.
  induction children as [| [k y] rest IH]; simpl; [auto |].
  destruct (String.compare key k); simpl; auto.
Qed.

Lemma in_emails_match email :
  forall children,
    In email (emails children) ->
    exists c, In c children /\ Voter.email (snd c) = email.
Proof.
  unfold emails. intros children Hin. apply in_map_iff in Hin.
  destruct Hin as (c & Heq & Hin). eauto.
Qed.

(** A registration answered 201 has stored its template. *)
Lemma register_created env req voterId registrationDate w :
  let r := run env (register env req voterId registrationDate) w in
  status_of (outcome r) = 201%nat ->
  exists value,
    validate_registration env (req_body req) = inr value
    /\ In (reg_email value) (emails (voters (final r))).
Proof.
  intro r. subst r. unfold register.
  destruct (validate_registration env (req_body req)) as [details | value];
    simpl; [discriminate |].
  unfold with_ref.
  destruct (db_rejects env RefVoters) as [e0 |]; simpl; [not_that_status e0 |].
  destruct (snapshot_exists _); simpl; [discriminate |].
  destruct (extract_features env (reg_faceData value)) as [fr | e0]; simpl;
    [| not_that_status e0].
  destruct (extract_success fr); simpl; [| discriminate].
  unfold with_ref.
  destruct (db_rejects env (RefVoter voterId)) as [e0 |]; simpl;
    [not_that_status e0 |].
  unfold with_ref.
  destruct (db_rejects env RefRegistrationLogs) as [e0 |]; simpl;
    [not_that_status e0 |].
  intros _. exists value. split; [reflexivity |].
  apply (set_child_stores_email voterId
           (Voter.mk voterId (reg_name value) (reg_email value)
              registrationDate (extract_faceEncoding fr) "active"
              (server_time w))).
Qed.

(** C10, as the code behaves: for requests handled one after another, a
    store whose contact keys are unique keeps them unique, and once a
    registration has been answered 201 a registration with the same email
    that follows it is answered 409 and changes nothing. *)
Theorem serialized_registrations_keep_emails_unique
  env w incoming req voterId registrationDate value
  req' voterId' registrationDate' value' :
  validate_registration env (req_body req) = inr value ->
  validate_registration env (req_body req') = inr value' ->
  reg_email value' = reg_email value ->
  db_rejects env RefVoters = None ->
  (unique_emails (voters w) ->
   unique_emails (voters (served env incoming w)))
  /\ (let first := run env (register env req voterId registrationDate) w in
      status_of (outcome first) = 201%nat ->
      let second :=
        run env (register env req' voterId' registrationDate') (final first) in
      outcome second
      = Returned (mkResponse 409 (ErrorBody "Email already registered"))
      /\ final second = final first).
Proof.
  intros Hval Hval' Hsame Hdb. split.
  - revert w. induction incoming as [| [t i] incoming IH]; intros w Hunique;
      simpl; [exact Hunique |].
    apply IH. apply handle_keeps_emails_unique. exact Hunique.
  - intros first Hcreated second.
    apply (register_conflict env req' voterId' registrationDate'
             (final first) value' Hval' Hdb).
    apply in_emails_match. rewrite Hsame.
    destruct (register_created env req voterId registrationDate w Hcreated)
      as (value0 & Hval0 & Hstored).
    rewrite Hval in Hval0. injection Hval0 as <-. exact Hstored.
Qed.

Lemma serialized_registrations_keep_emails_unique_witness :
  (unique_emails (voters empty_world) ->
   unique_emails
     (voters
        (served sample_env
           [(6000%Z, PostRegister ada_request "uuid-1" "now");
            (7000%Z, PostRegister ada_request "uuid-2" "now")] empty_world)))
  /\ outcome
       (run sample_env (register sample_env ada_request "uuid-2" "now")
          (final (run sample_env (register sample_env ada_request "uuid-1" "now")
                    empty_world)))
     = Returned (mkResponse 409 (ErrorBody "Email already registered")).
Proof.
  destruct (serialized_registrations_keep_emails_unique sample_env empty_world
              [(6000%Z, PostRegister ada_request "uuid-1" "now");
               (7000%Z, PostRegister ada_request "uuid-2" "now")]
              ada_request "uuid-1" "now"
              (mkRegistration "Ada" "ada@example.org" "img")
              ada_request "uuid-2" "now"
              (mkRegistration "Ada" "ada@example.org" "img")
              eq_refl eq_refl eq_refl eq_refl) as [Hunique Hconflict].
  split; [exact Hunique |].
  apply Hconflict. reflexivity.
Defined.

(** The event loop agrees with [run]: a request resumed alone often enough
    ends where [run] ends, in the world [run] ends in. *)
Lemma interleave_alone env (p : Async Response) :
  forall w,
    exists n,
      interleave env (repeat 0%nat n) [p] w
      = ([match outcome (run env p w) with
          | Returned resp => Return resp
          | Uncaught e => Throw e
          end],
         final (run env p w)).
Proof.
  induction p as [resp | e | X op k IH]; intro w.
  - exists 0%nat. reflexivity.
  - exists 0%nat. reflexivity.
  - destruct (perform env op w) as [s w'] eqn:Hperform.
    destruct (IH s w') as [n Hn].
    exists (S n). simpl. rewrite Hperform. simpl. exact Hn.
Qed.

(** C10 as stated fails: two registrations of one email whose steps
    alternate both pass the check before either writes; both are answered
    201 and two templates share the email. *)
Lemma one_writer_wins_counterexample :
  ~ one_writer_wins sample_env alternating racing_registrations empty_world.
Proof.
  unfold one_writer_wins. vm_compute. intros [Hone _]. discriminate Hone.
Qed.

Example racing_registrations_both_stored :
  let '(done, w) :=
    interleave sample_env alternating racing_registrations empty_world in
  done
  = [Return (mkResponse 201
               (RegisteredBody "Voter registered successfully" "uuid-1"));
     Return (mkResponse 201
               (RegisteredBody "Voter registered successfully" "uuid-2"))]
  /\ emails (voters w) = ["ada@example.org"; "ada@example.org"].
Proof. split; reflexivity. Qed.

(** * Further properties of the handlers *)

(** ** Every way [/api/authenticate] can end *)

Lemma scan_found_in env probe pool entries :
  (forall v, In v (active_templates entries) -> In v pool) ->
  forall bm bc w,
    found_in env probe pool (bm, bc) ->
    match outcome (run env (scan probe entries bm bc) w) with
    | Returned best => found_in env probe pool best
    | Uncaught _ => True
    end.
Proof.
  unfold active_templates.
  induction entries as [| [voterId voter] rest IH]; intros Hpool bm bc w Hinv;
    simpl in *.
  - exact Hinv.
  - case_active voter.
    + destruct (compare_faces env probe (Voter.faceEncoding voter)) as [c | e]
        eqn:Hanswer; simpl; [| exact I].
      assert (Hrest : forall u,
                In u (filter is_active (map snd rest)) -> In u pool)
        by (intros u Hu; apply Hpool; right; exact Hu).
      destruct (compare_success c) eqn:Hok; simpl;
        [| apply IH; assumption].
      destruct (Qgtb (compare_confidence c) bc) eqn:E;
        [| apply IH; assumption].
      apply IH; [exact Hrest |].
      right. exists voter, c. split; [reflexivity |].
      split; [apply Hpool; left; reflexivity |].
      split; [exact Hanswer |]. split; [exact Hok |].
      apply Qgtb_true in E.
      destruct Hinv as [Hstart | (v0 & c0 & Hbest & _ & _ & _ & Hpos)].
      * injection Hstart as _ ->. exact E.
      * injection Hbest as _ ->. eapply Qlt_trans; eassumption.
    + apply IH; assumption.
Qed.

(** The template a scan ends on was sent to the face service during that
    scan, unless the scan started from it. *)
Lemma scan_best_traced env probe entries :
  forall bm bc w v q,
    outcome (run env (scan probe entries bm bc) w) = Returned (Some v, q) ->
    bm = Some v
    \/ In (probe, Voter.faceEncoding v)
         (compared (trace (run env (scan probe entries bm bc) w))).
Proof.
  induction entries as [| [voterId voter] rest IH]; intros bm bc w v q; simpl.
  - intro H. injection H as -> _. left. reflexivity.
  - case_active voter.
    + destruct (compare_faces env probe (Voter.faceEncoding voter)) as [c | e];
        simpl; [| discriminate].
      destruct (compare_success c && Qgtb (compare_confidence c) bc);
        intro Hrun; destruct (IH _ _ _ _ _ Hrun) as [Hstart | Hin]; auto.
      injection Hstart as ->. right. left. reflexivity.
    + apply IH.
Qed.

(** [/api/authenticate] ends in one of two ways: with an error response and
    the database untouched, or with the verdict on what the scan found for
    the encoding extracted from the request's face, the template it found
    having been sent to the face service with that encoding, and exactly
    that attempt appended to the log. *)
Lemma authenticate_probed env req w :
  let r := run env (authenticate env req) w in
  (final r = w
   /\ exists resp,
        outcome r = Returned resp
        /\ is_error_body (body resp)
        /\ (status resp = 400 \/ status resp = 500 \/ status resp = 503)%nat)
  \/ exists faceData faceResponse best,
       validate_authentication env (req_body req) = inr faceData
       /\ extract_features env faceData = Fulfilled faceResponse
       /\ extract_success faceResponse = true
       /\ found_in env (extract_faceEncoding faceResponse)
            (active_templates (voters w)) best
       /\ (forall v, fst best = Some v ->
             In (extract_faceEncoding faceResponse, Voter.faceEncoding v)
               (compared (trace r)))
       /\ final r
          = mkWorld (voters w) (registration_logs w)
              (authentication_logs w
               ++ [(push_id env (pushes w),
                    attempt_of req best (server_time w))])
              (S (pushes w)) (server_time w)
       /\ outcome r = Returned (verdict best).
Proof.
  assert (Hcaught : forall e,
    is_error_body (body (service_failure e))
    /\ (status (service_failure e) = 400
        \/ status (service_failure e) = 500
        \/ status (service_failure e) = 503)%nat).
  { intro e. unfold service_failure.
    destruct (has_code e "ECONNREFUSED"); simpl; auto. }
  intro r. subst r. unfold authenticate.
  destruct (validate_authentication env (req_body req)) as [details | faceData]
    eqn:Hvalid; simpl.
  { left. split; [reflexivity |]. eexists. split; [reflexivity |].
    simpl. auto. }
  destruct (extract_features env faceData) as [faceResponse | e] eqn:Hface;
    simpl.
  2: { rewrite run_service_catch_eq. simpl. left. split; [reflexivity |].
       eexists. split; [reflexivity | apply Hcaught]. }
  destruct (extract_success faceResponse) eqn:Hdetected; simpl.
  2: { left. split; [reflexivity |]. eexists. split; [reflexivity |].
       simpl. auto. }
  unfold with_ref.
  destruct (db_rejects env RefVoters) as [e |]; simpl.
  { rewrite run_service_catch_eq. simpl. left. split; [reflexivity |].
    eexists. split; [reflexivity | apply Hcaught]. }
  rewrite run_try_catch_bind.
  pose proof (scan_final env (extract_faceEncoding faceResponse) (voters w)
                None 0 w) as Hfinal.
  pose proof (scan_found_in env (extract_faceEncoding faceResponse)
                (active_templates (voters w)) (voters w) (fun v H => H)
                None 0 w (or_introl eq_refl)) as Hfound.
  pose proof (scan_best_traced env (extract_faceEncoding faceResponse)
                (voters w) None 0 w) as Htraced.
  destruct (run env (scan (extract_faceEncoding faceResponse) (voters w) None 0) w)
    as [out wf t]. simpl in *. subst wf.
  destruct out as [[bestMatch bestConfidence] | e]; simpl.
  - unfold with_ref.
    destruct (db_rejects env RefAuthenticationLogs) as [e |]; simpl.
    + rewrite run_service_catch_eq. simpl. left. split; [reflexivity |].
      eexists. split; [reflexivity | apply Hcaught].
    + right. exists faceData, faceResponse, (bestMatch, bestConfidence).
      split; [reflexivity |]. split; [exact Hface |].
      split; [exact Hdetected |]. split; [exact Hfound |].
      split.
      * simpl. intros v ->.
        destruct (Htraced v bestConfidence eq_refl) as [Hnone | Hin];
          [discriminate Hnone |].
        destruct (Qgeb bestConfidence CONFIDENCE_THRESHOLD); simpl;
          rewrite compared_app; apply in_or_app; left; exact Hin.
      * unfold verdict, attempt_of. simpl.
        destruct (Qgeb bestConfidence CONFIDENCE_THRESHOLD), bestMatch;
          simpl; split; reflexivity.
  - rewrite run_service_catch_eq. simpl. left. split; [reflexivity |].
    eexists. split; [reflexivity | apply Hcaught].
Qed.

(** The same two ways, for whatever encoding the scan was given. *)
Lemma authenticate_cases env req w :
  let r := run env (authenticate env req) w in
  (final r = w
   /\ exists resp,
        outcome r = Returned resp
        /\ is_error_body (body resp)
        /\ (status resp = 400 \/ status resp = 500 \/ status resp = 503)%nat)
  \/ exists probe best,
       found_in env probe (active_templates (voters w)) best
       /\ final r
          = mkWorld (voters w) (registration_logs w)
              (authentication_logs w
               ++ [(push_id env (pushes w),
                    attempt_of req best (server_time w))])
              (S (pushes w)) (server_time w)
       /\ outcome r = Returned (verdict best).
Proof.
  intro r.
  destruct (authenticate_probed env req w)
    as [Herror
       | (faceData & faceResponse & best & _ & _ & _ & Hfound & _ & Hfinal
          & Hverdict)].
  - left. exact Herror.
  - right. exists (extract_faceEncoding faceResponse), best. auto.
Qed.

(** ** Every way [/api/register] can end *)

(** [/api/register] ends with an error response and the database untouched,
    or with its template stored; then either the registration log refused
    the entry and the caller gets the [catch] block's response, or the entry
    is appended and the caller gets 201. *)
Lemma register_cases env req voterId registrationDate w :
  let r := run env (register env req voterId registrationDate) w in
  (final r = w
   /\ exists resp,
        outcome r = Returned resp
        /\ is_error_body (body resp)
        /\ (status resp = 400 \/ status resp = 409
            \/ status resp = 500 \/ status resp = 503)%nat)
  \/ exists value faceResponse,
       validate_registration env (req_body req) = inr value
       /\ filter (fun c => Voter.email (snd c) =? reg_email value) (voters w)
          = []
       /\ extract_features env (reg_faceData value) = Fulfilled faceResponse
       /\ extract_success faceResponse = true
       /\ ((exists e,
              db_rejects env RefRegistrationLogs = Some e
              /\ final r
                 = with_template voterId registrationDate value faceResponse w
              /\ outcome r = Returned (service_failure e))
           \/ (final r
               = with_registration env voterId registrationDate value
                   faceResponse w
               /\ outcome r
                  = Returned
                      (mkResponse 201
                         (RegisteredBody "Voter registered successfully"
                            voterId)))).
Proof.
  assert (Hcaught : forall e,
    is_error_body (body (service_failure e))
    /\ (status (service_failure e) = 400
        \/ status (service_failure e) = 409
        \/ status (service_failure e) = 500
        \/ status (service_failure e) = 503)%nat).
  { intro e. unfold service_failure.
    destruct (has_code e "ECONNREFUSED"); simpl; auto. }
  intro r. subst r. unfold register.
  destruct (validate_registration env (req_body req)) as [details | value];
    simpl.
  { left. split; [reflexivity |]. eexists. split; [reflexivity |].
    simpl. auto. }
  unfold with_ref.
  destruct (db_rejects env RefVoters) as [e |]; simpl.
  { rewrite run_service_catch_eq. simpl. left. split; [reflexivity |].
    eexists. split; [reflexivity | apply Hcaught]. }
  destruct (filter _ (voters w)) as [| c found] eqn:Hfound; simpl.
  2: { left. split; [reflexivity |]. eexists. split; [reflexivity |].
       simpl. auto. }
  destruct (extract_features env (reg_faceData value)) as [faceResponse | e]
    eqn:Hextract; simpl.
  2: { rewrite run_service_catch_eq. simpl. left. split; [reflexivity |].
       eexists. split; [reflexivity | apply Hcaught]. }
  destruct (extract_success faceResponse) eqn:Hok; simpl.
  2: { left. split; [reflexivity |]. eexists. split; [reflexivity |].
       simpl. auto. }
  unfold with_ref.
  destruct (db_rejects env (RefVoter voterId)) as [e |]; simpl.
  { rewrite run_service_catch_eq. simpl. left. split; [reflexivity |].
    eexists. split; [reflexivity | apply Hcaught]. }
  right. exists value, faceResponse.
  repeat (split; [first [reflexivity | assumption] |]).
  unfold with_ref.
  destruct (db_rejects env RefRegistrationLogs) as [e |]; simpl.
  - left. exists e. rewrite run_service_catch_eq. simpl.
    repeat split.
  - right. split; reflexivity.
Qed.

Lemma in_set_child_same {A : Type} (key : string) (x : A) :
  forall children, In (key, x) (set_child key x children).
Proof.
  induction children as [| [k y] rest IH]; simpl; [auto |].
  destruct (String.compare key k); simpl; auto.
Qed.

Lemma in_set_child_kept {A : Type} (key id : string) (x v : A) :
  key <> id ->
  forall children,
    In (id, v) children -> In (id, v) (set_child key x children).
Proof.
  intro Hne.
  induction children as [| [k y] rest IH]; simpl; [tauto |].
  destruct (String.compare key k) eqn:Hcmp; simpl.
  - apply String.compare_eq_iff in Hcmp. subst k.
    intros [H | H]; [congruence | auto].
  - auto.
  - intros [H | H]; auto.
Qed.

(** A registration answered 201 leaves its record among the active
    templates. *)
Lemma registered_template_stays env req voterId registrationDate w :
  let r := run env (register env req voterId registrationDate) w in
  status_of (outcome r) = 201%nat ->
  exists value faceResponse,
    validate_registration env (req_body req) = inr value
    /\ extract_features env (reg_faceData value) = Fulfilled faceResponse
    /\ In (voter_record voterId registrationDate value faceResponse
             (server_time w))
         (active_templates (voters (final r))).
Proof.
  intros r Hcreated.
  destruct (register_cases env req voterId registrationDate w)
    as [(_ & resp & Hout & _ & Hstatus)
       | (value & faceResponse & Hval & _ & Hextract & _
          & [(e & _ & _ & Hout) | (Hfinal & _)])];
    fold r in Hout || fold r in Hfinal.
  - rewrite Hout in Hcreated. simpl in Hcreated. lia.
  - exfalso. rewrite Hout in Hcreated. revert Hcreated. simpl.
    unfold service_failure. destruct (has_code e "ECONNREFUSED"); discriminate.
  - exists value, faceResponse.
    split; [exact Hval |]. split; [exact Hextract |].
    rewrite Hfinal. simpl.
    unfold active_templates. apply filter_In. split; [| reflexivity].
    apply in_map_iff. eexists. split; [| apply in_set_child_same].
    reflexivity.
Qed.

(** X1: a registration answered 201 has stored its template: the record
    under [voterId] carries the validated name and email, the extracted
    encoding and status [active], so it is in the next snapshot of active
    templates; every template under another key is as before; the
    registration log has grown by exactly the entry naming [voterId], and
    the attempt log is untouched. *)
Theorem registered_template_is_stored env req voterId registrationDate w :
  let r := run env (register env req voterId registrationDate) w in
  status_of (outcome r) = 201%nat ->
  exists value faceResponse,
    validate_registration env (req_body req) = inr value
    /\ extract_features env (reg_faceData value) = Fulfilled faceResponse
    /\ let stored :=
         voter_record voterId registrationDate value faceResponse
           (server_time w) in
       In (voterId, stored) (voters (final r))
       /\ In stored (active_templates (voters (final r)))
       /\ (forall k v, k <> voterId ->
             (In (k, v) (voters (final r)) <-> In (k, v) (voters w)))
       /\ registration_logs (final r)
          = registration_logs w
            ++ [(push_id env (pushes w),
                 registration_entry voterId value (server_time w))]
       /\ authentication_logs (final r) = authentication_logs w.
Proof.
  intros r Hcreated.
  destruct (register_cases env req voterId registrationDate w)
    as [(_ & resp & Hout & _ & Hstatus)
       | (value & faceResponse & Hval & _ & Hextract & _
          & [(e & _ & _ & Hout) | (Hfinal & _)])];
    fold r in Hout || fold r in Hfinal.
  - rewrite Hout in Hcreated. simpl in Hcreated. lia.
  - exfalso. rewrite Hout in Hcreated. revert Hcreated. simpl.
    unfold service_failure. destruct (has_code e "ECONNREFUSED"); discriminate.
  - exists value, faceResponse.
    split; [exact Hval |]. split; [exact Hextract |].
    rewrite Hfinal. simpl.
    split; [apply in_set_child_same |].
    split.
    { unfold active_templates. apply filter_In. split; [| reflexivity].
      apply in_map_iff. eexists. split; [| apply in_set_child_same].
      reflexivity. }
    split; [| split; reflexivity].
    intros k v Hne. split.
    + apply in_set_child_other. congruence.
    + apply in_set_child_kept. congruence.
Qed.

Lemma registered_template_is_stored_witness :
  exists value faceResponse,
    validate_registration sample_env (req_body ada_request) = inr value
    /\ extract_features sample_env (reg_faceData value) = Fulfilled faceResponse
    /\ let r := run sample_env (register sample_env ada_request "uuid-1" "now")
                  near_miss in
       let stored :=
         voter_record "uuid-1" "now" value faceResponse
           (server_time near_miss) in
       In ("uuid-1", stored) (voters (final r))
       /\ In stored (active_templates (voters (final r)))
       /\ (forall k v, k <> "uuid-1" ->
             (In (k, v) (voters (final r)) <-> In (k, v) (voters near_miss)))
       /\ registration_logs (final r)
          = registration_logs near_miss
            ++ [(push_id sample_env (pushes near_miss),
                 registration_entry "uuid-1" value (server_time near_miss))]
       /\ authentication_logs (final r) = authentication_logs near_miss.
Proof.
  destruct (registered_template_is_stored sample_env ada_request "uuid-1" "now"
              near_miss eq_refl)
    as (value & faceResponse & Hval & Hextract & Hrest).
  exists value, faceResponse. auto.
Defined.

(** X2: a registration that is turned away with 400 or 409 has written
    nothing at all, and whatever the answer, anything other than 201 leaves
    the registration log and the attempt log as they were. *)
Theorem rejected_registration_writes_nothing
  env req voterId registrationDate w :
  let r := run env (register env req voterId registrationDate) w in
  (status_of (outcome r) = 400%nat \/ status_of (outcome r) = 409%nat ->
   final r = w)
  /\ (status_of (outcome r) <> 201%nat ->
      registration_logs (final r) = registration_logs w
      /\ authentication_logs (final r) = authentication_logs w).
Proof.
  intro r.
  destruct (register_cases env req voterId registrationDate w)
    as [(Hfinal & _)
       | (value & faceResponse & _ & _ & _ & _
          & [(e & _ & Hfinal & Hout) | (Hfinal & Hout)])];
    fold r in Hfinal; try fold r in Hout.
  - rewrite Hfinal. auto.
  - split.
    + rewrite Hout. simpl. unfold service_failure.
      destruct (has_code e "ECONNREFUSED"); simpl; intros [? | ?]; discriminate.
    + intros _. rewrite Hfinal. split; reflexivity.
  - rewrite Hout. simpl. split; [intros [? | ?]; discriminate |].
    intro H. exfalso. apply H. reflexivity.
Qed.

Lemma rejected_registration_writes_nothing_witness :
  let w := world_of [template "R" "ada@example.org" [99 # 100] "revoked"] in
  final (run sample_env (register sample_env ada_request "uuid-1" "now") w) = w.
Proof.
  apply (rejected_registration_writes_nothing sample_env ada_request "uuid-1"
           "now"
           (world_of [template "R" "ada@example.org" [99 # 100] "revoked"])).
  right. reflexivity.
Defined.

(** ** Registration followed by identification *)

(** X3: a voter whose registration was answered 201 takes part in the very
    next identification: when that request is valid, a face is extracted,
    the database answers and the face service answers every comparison,
    the encoding stored at registration is among those compared with the
    probe. *)
Theorem registered_template_is_compared_next
  env req voterId registrationDate w req' faceData faceResponse' answer :
  let r := run env (register env req voterId registrationDate) w in
  status_of (outcome r) = 201%nat ->
  validate_authentication env (req_body req') = inr faceData ->
  extract_features env faceData = Fulfilled faceResponse' ->
  extract_success faceResponse' = true ->
  db_rejects env RefVoters = None ->
  db_rejects env RefAuthenticationLogs = None ->
  (forall v, In v (active_templates (voters (final r))) ->
     compare_faces env (extract_faceEncoding faceResponse')
       (Voter.faceEncoding v)
     = Fulfilled (answer v)) ->
  exists value faceResponse,
    validate_registration env (req_body req) = inr value
    /\ extract_features env (reg_faceData value) = Fulfilled faceResponse
    /\ In (extract_faceEncoding faceResponse',
           extract_faceEncoding faceResponse)
         (compared (trace (run env (authenticate env req') (final r)))).
Proof.
  intros r Hcreated Hval Hext Hok Hdb Hlog Hans.
  destruct (registered_template_stays env req voterId registrationDate w
              Hcreated)
    as (value & faceResponse & Hval0 & Hext0 & Hactive).
  fold r in Hactive.
  exists value, faceResponse.
  split; [exact Hval0 |]. split; [exact Hext0 |].
  destruct (authenticate_answered env req' (final r) faceData faceResponse'
              answer Hval Hext Hok Hdb Hlog Hans) as (Htrace & _).
  rewrite Htrace. unfold comparisons.
  apply in_map_iff. eexists. split; [| exact Hactive]. reflexivity.
Qed.

Lemma registered_template_is_compared_next_witness :
  exists value faceResponse,
    validate_registration sample_env (req_body ada_request) = inr value
    /\ extract_features sample_env (reg_faceData value) = Fulfilled faceResponse
    /\ In ([1], extract_faceEncoding faceResponse)
         (compared
            (trace
               (run sample_env (authenticate sample_env probe_request)
                  (final (run sample_env
                            (register sample_env ada_request "uuid-1" "now")
                            near_miss))))).
Proof.
  apply (registered_template_is_compared_next sample_env ada_request "uuid-1"
           "now" near_miss probe_request "img" (mkExtract true [1] "")
           sample_answer); try reflexivity.
  intros v [<- | [<- | []]]; reflexivity.
Defined.

(** ** Who can be authenticated *)

(** X4: whoever [/api/authenticate] names in a response is a template that
    is active in the store, the status is 200, the confidence is at least
    [CONFIDENCE_THRESHOLD], and that confidence is what the face service
    answered, with [success: true], when asked to compare the encoding
    extracted from the request's face with that very template, a
    comparison that is among the calls of the run. *)
Theorem authenticated_voter_is_active_and_scored
  env req w code message view confidence :
  let r := run env (authenticate env req) w in
  outcome r
  = Returned (mkResponse code (AuthenticatedBody message view confidence)) ->
  code = 200%nat
  /\ CONFIDENCE_THRESHOLD <= confidence
  /\ exists faceData faceResponse v c,
       validate_authentication env (req_body req) = inr faceData
       /\ extract_features env faceData = Fulfilled faceResponse
       /\ In v (active_templates (voters w))
       /\ view = mkVoterView (Voter.id v) (Voter.name v) (Voter.email v)
       /\ In (extract_faceEncoding faceResponse, Voter.faceEncoding v)
            (compared (trace r))
       /\ compare_faces env (extract_faceEncoding faceResponse)
            (Voter.faceEncoding v)
          = Fulfilled c
       /\ compare_success c = true
       /\ compare_confidence c = confidence.
Proof.
  intros r Hout.
  destruct (authenticate_probed env req w)
    as [(_ & resp & Hresp & Herror & _)
       | (faceData & faceResponse & best & Hvalid & Hface & _ & Hfound
          & Htraced & _ & Hverdict)];
    fold r in Hresp || fold r in Htraced, Hverdict.
  - rewrite Hout in Hresp. injection Hresp as <-. destruct Herror.
  - rewrite Hout in Hverdict. injection Hverdict as Hverdict.
    unfold verdict in Hverdict.
    destruct Hfound as [-> | (v & c & -> & Hin & Hanswer & Hok & _)];
      simpl in Hverdict.
    + discriminate Hverdict.
    + destruct (Qgeb (compare_confidence c) CONFIDENCE_THRESHOLD) eqn:E;
        [| discriminate Hverdict].
      injection Hverdict as -> _ -> ->.
      split; [reflexivity |].
      split; [apply Qgeb_true; exact E |].
      exists faceData, faceResponse, v, c.
      split; [exact Hvalid |]. split; [exact Hface |].
      split; [exact Hin |]. split; [reflexivity |].
      split; [apply Htraced; reflexivity |]. auto.
Qed.

Lemma authenticated_voter_is_active_and_scored_witness :
  CONFIDENCE_THRESHOLD <= 92 # 100
  /\ exists faceData faceResponse v c,
       validate_authentication sample_env (req_body probe_request)
       = inr faceData
       /\ extract_features sample_env faceData = Fulfilled faceResponse
       /\ In v (active_templates (voters example_population))
       /\ mkVoterView "A" "A" "a@example.org"
          = mkVoterView (Voter.id v) (Voter.name v) (Voter.email v)
       /\ In (extract_faceEncoding faceResponse, Voter.faceEncoding v)
            (compared
               (trace (run sample_env (authenticate sample_env probe_request)
                         example_population)))
       /\ compare_faces sample_env (extract_faceEncoding faceResponse)
            (Voter.faceEncoding v)
          = Fulfilled c
       /\ compare_success c = true
       /\ compare_confidence c = 92 # 100.
Proof.
  apply (authenticated_voter_is_active_and_scored sample_env probe_request
           example_population 200 "Authentication successful"
           (mkVoterView "A" "A" "a@example.org") (92 # 100) eq_refl).
Defined.

(** ** The response and the audit record *)

(** X5: [/api/authenticate] always answers, and its answer and its audit
    record go together: a 200 or 401 response comes with exactly one new
    attempt, stamped with the server time and the caller's address, whose
    confidence is the one in the response, whose result is [success] for
    200 and [failed] for 401, and which names the voter of a 200; any other
    response comes with no new attempt and an unchanged database. *)
Theorem response_and_record_agree env req w :
  let r := run env (authenticate env req) w in
  exists resp,
    outcome r = Returned resp
    /\ ((status resp = 200%nat \/ status resp = 401%nat) ->
        exists key log,
          appended_attempts w r = [(key, log)]
          /\ AuthLog.timestamp log = server_time w
          /\ AuthLog.ipAddress log = req_ip req
          /\ record_matches resp log)
    /\ (status resp <> 200%nat -> status resp <> 401%nat ->
        appended_attempts w r = [] /\ final r = w).
Proof.
  intro r.
  destruct (authenticate_cases env req w)
    as [(Hfinal & resp & Hout & _ & Hstatus)
       | (probe & best & Hfound & Hfinal & Hout)];
    fold r in Hfinal, Hout.
  - exists resp. split; [exact Hout |]. split.
    + intros [H | H]; rewrite H in Hstatus; intuition discriminate.
    + intros _ _. unfold appended_attempts. rewrite Hfinal, skipn_all. auto.
  - exists (verdict best). split; [exact Hout |].
    assert (Happended :
      appended_attempts w r
      = [(push_id env (pushes w), attempt_of req best (server_time w))]).
    { unfold appended_attempts. rewrite Hfinal. simpl. apply skipn_exact. }
    assert (Hverdict :
      (status (verdict best) = 200%nat \/ status (verdict best) = 401%nat)
      /\ record_matches (verdict best) (attempt_of req best (server_time w))).
    { unfold verdict, record_matches, attempt_of.
      destruct Hfound as [-> | (v & c & -> & _)]; simpl.
      - auto.
      - destruct (Qgeb (compare_confidence c) CONFIDENCE_THRESHOLD); simpl;
          auto 10. }
    split.
    + intros _. eexists _, _. split; [exact Happended |].
      split; [reflexivity |]. split; [reflexivity |]. apply Hverdict.
    + intros H200 H401. destruct Hverdict as [[H | H] _]; contradiction.
Qed.

Lemma response_and_record_agree_witness :
  let r := run sample_env (authenticate sample_env probe_request) near_miss in
  exists resp,
    outcome r = Returned resp
    /\ ((status resp = 200%nat \/ status resp = 401%nat) ->
        exists key log,
          appended_attempts near_miss r = [(key, log)]
          /\ AuthLog.timestamp log = server_time near_miss
          /\ AuthLog.ipAddress log = req_ip probe_request
          /\ record_matches resp log)
    /\ (status resp <> 200%nat -> status resp <> 401%nat ->
        appended_attempts near_miss r = [] /\ final r = near_miss).
Proof.
  exact (response_and_record_agree sample_env probe_request near_miss).
Defined.

(** ** No request goes unanswered *)

Lemma stats_answers env tzOffset now w :
  exists resp,
    outcome (run env (stats tzOffset now) w) = Returned resp
    /\ (status resp = 200 \/ status resp = 500)%nat.
Proof.
  unfold stats. simpl. unfold with_ref.
  destruct (db_rejects env RefVoters); simpl; [eauto |].
  unfold with_ref.
  destruct (db_rejects env RefAuthenticationLogs); simpl; eauto.
Qed.

Lemma logs_answers env req w :
  exists resp,
    outcome (run env (logs req) w) = Returned resp
    /\ (status resp = 200 \/ status resp = 500)%nat.
Proof.
  unfold logs. simpl.
  destruct (requested_limit (req_limit req) <=? 0)%Z; simpl; [eauto |].
  unfold with_ref.
  destruct (db_rejects env RefAuthenticationLogs); simpl; [eauto |].
  destruct (log_views _); simpl; eauto.
Qed.

(** X6: whatever the collaborators do (a rejected database call, an
    unreachable face service, an invalid date), each of the four routes
    catches it and answers, and only ever with one of the statuses 200,
    201, 400, 401, 409, 500 and 503. *)
Theorem every_request_is_answered env i w :
  exists resp,
    outcome (run env (handle env i) w) = Returned resp
    /\ known_status (status resp).
Proof.
  unfold known_status.
  destruct i as [req voterId registrationDate | req | tzOffset now | req];
    cbn [handle].
  - destruct (register_cases env req voterId registrationDate w)
      as [(_ & resp & Hout & _ & Hstatus)
         | (value & faceResponse & _ & _ & _ & _
            & [(e & _ & _ & Hout) | (_ & Hout)])];
      eexists; (split; [exact Hout |]); simpl.
    + intuition.
    + unfold service_failure. destruct (has_code e "ECONNREFUSED"); simpl;
        intuition.
    + intuition.
  - destruct (authenticate_cases env req w)
      as [(_ & resp & Hout & _ & Hstatus) | (probe & best & _ & _ & Hout)];
      eexists; (split; [exact Hout |]); simpl.
    + intuition.
    + unfold verdict.
      destruct (Qgeb (snd best) CONFIDENCE_THRESHOLD), (fst best); simpl;
        intuition.
  - destruct (stats_answers env tzOffset now w) as (resp & Hout & Hstatus).
    exists resp. split; [exact Hout |]. simpl. intuition.
  - destruct (logs_answers env req w) as (resp & Hout & Hstatus).
    exists resp. split; [exact Hout |]. simpl. intuition.
Qed.

(** ** What the scan depends on *)

(** The scan reads nothing from the database: run from another world it
    makes the same calls and ends the same way. *)
Lemma scan_rebased env probe entries :
  forall bm bc w w',
    run env (scan probe entries bm bc) w'
    = mkRun (outcome (run env (scan probe entries bm bc) w)) w'
        (trace (run env (scan probe entries bm bc) w)).
Proof.
  induction entries as [| [voterId voter] rest IH]; intros bm bc w w'; simpl.
  - reflexivity.
  - case_active voter; [| apply IH].
    destruct (compare_faces env probe (Voter.faceEncoding voter)) as [c | e];
      simpl; [| reflexivity].
    destruct (compare_success c && Qgtb (compare_confidence c) bc);
      rewrite (IH _ _ w w'); reflexivity.
Qed.

Lemma scan_only_active env probe entries :
  forall bm bc w,
    run env
      (scan probe (filter (fun c => is_active (snd c)) entries) bm bc) w
    = run env (scan probe entries bm bc) w.
Proof.
  induction entries as [| [voterId voter] rest IH]; intros bm bc w; simpl.
  - reflexivity.
  - destruct (is_active voter) eqn:Hactive; simpl.
    + change (Voter.status voter =? "active") with (is_active voter).
      rewrite Hactive. simpl.
      destruct (compare_faces env probe (Voter.faceEncoding voter)) as [c | e];
        simpl; [| reflexivity].
      destruct (compare_success c && Qgtb (compare_confidence c) bc);
        rewrite IH; reflexivity.
    + change (Voter.status voter =? "active") with (is_active voter).
      rewrite Hactive. simpl. apply IH.
Qed.

(** X7: templates that are not active have no influence on an
    identification: with them removed from the store, [/api/authenticate]
    sends the same comparisons, gives the same response and writes the same
    attempt. *)
Theorem inactive_templates_do_not_matter env req w :
  let r := run env (authenticate env req) w in
  let r' := run env (authenticate env req) (only_active w) in
  outcome r' = outcome r
  /\ compared (trace r') = compared (trace r)
  /\ appended_attempts (only_active w) r' = appended_attempts w r.
Proof.
  intros r r'. subst r r'. unfold appended_attempts, authenticate.
  destruct (validate_authentication env (req_body req)) as [details | faceData];
    simpl; [auto |].
  destruct (extract_features env faceData) as [faceResponse | e]; simpl.
  2: { rewrite !run_service_catch_eq. simpl. auto. }
  destruct (extract_success faceResponse); simpl; [| auto].
  unfold with_ref.
  destruct (db_rejects env RefVoters) as [e |]; simpl.
  { rewrite !run_service_catch_eq. simpl. auto. }
  rewrite !run_try_catch_bind.
  rewrite scan_only_active.
  rewrite (scan_rebased env _ (voters w) None 0 w (only_active w)).
  pose proof (scan_final env (extract_faceEncoding faceResponse) (voters w)
                None 0 w) as Hfinal.
  destruct (run env (scan (extract_faceEncoding faceResponse) (voters w) None 0) w)
    as [out wf t]. simpl in *. subst wf.
  destruct out as [[bestMatch bestConfidence] | e]; simpl.
  - unfold with_ref.
    destruct (db_rejects env RefAuthenticationLogs) as [e |]; simpl.
    + rewrite !run_service_catch_eq. simpl. auto.
    + destruct (Qgeb bestConfidence CONFIDENCE_THRESHOLD), bestMatch; simpl;
        rewrite ?run_service_catch_eq; simpl; auto.
  - rewrite !run_service_catch_eq. simpl. auto.
Qed.

Transparent service_catch.

(** X8: the snapshot isolates the identification: once
    [/api/authenticate] has read [/voters], whatever the database has become
    by the time it goes on (templates added, removed or revoked by other
    requests), it sends the comparisons and gives the response it would have
    given running alone on the database it read. *)
Theorem snapshot_isolates_identification env req w w' :
  let alone := run env (authenticate env req) w in
  let resumed := run env (after_snapshot env req w) w' in
  outcome resumed = outcome alone
  /\ compared (trace resumed) = compared (trace alone).
Proof.
  intros alone resumed. subst alone resumed.
  unfold after_snapshot, authenticate.
  destruct (validate_authentication env (req_body req)) as [details | faceData];
    simpl; [auto |].
  destruct (extract_features env faceData) as [faceResponse | e]; simpl.
  2: { auto. }
  destruct (extract_success faceResponse); simpl; [| auto].
  unfold with_ref.
  destruct (db_rejects env RefVoters) as [e |]; simpl.
  { auto. }
  rewrite !run_try_catch_bind.
  rewrite (scan_rebased env _ (voters w) None 0 w w').
  pose proof (scan_final env (extract_faceEncoding faceResponse) (voters w)
                None 0 w) as Hfinal.
  destruct (run env (scan (extract_faceEncoding faceResponse) (voters w) None 0) w)
    as [out wf t]. simpl in *. subst wf.
  destruct out as [[bestMatch bestConfidence] | e]; simpl.
  - unfold with_ref.
    destruct (db_rejects env RefAuthenticationLogs) as [e |]; simpl.
    + auto.
    + destruct (Qgeb bestConfidence CONFIDENCE_THRESHOLD), bestMatch; simpl;
        auto.
  - auto.
Qed.

Opaque service_catch.

(** ** The dashboard figures *)

Lemma length_filter_le {A : Type} (f : A -> bool) (l : list A) :
  (List.length (filter f l) <= List.length l)%nat.
Proof.
  induction l as [| x l IH]; simpl; [lia |].
  destruct (f x); simpl; lia.
Qed.

(** What [/api/dashboard/stats] answers when both reads succeed. *)
Lemma stats_answer env w tzOffset now :
  db_rejects env RefVoters = None ->
  db_rejects env RefAuthenticationLogs = None ->
  let window := map snd (lastn 100 (authentication_logs w)) in
  outcome (run env (stats tzOffset now) w)
  = Returned
      (mkResponse 200
         (StatsBody
            (mkStats (List.length (voters w))
               (List.length (active_templates (voters w)))
               (List.length
                  (filter (counted_today (start_of_local_day tzOffset now))
                     window))
               (if (0 <? List.length (lastn 100 (authentication_logs w)))%nat
                then number (List.length (filter is_success window))
                     / number (List.length (lastn 100 (authentication_logs w)))
                     * 100
                else 0)))).
Proof.
  intros Hv Hl window. unfold stats. simpl. unfold with_ref. rewrite Hv. simpl.
  unfold with_ref. rewrite Hl. simpl. reflexivity.
Qed.

(** X9: the figures [/api/dashboard/stats] reports are consistent:
    [totalRegistered] is the number of stored templates of any status,
    [activeVoters] the number of active ones and so never more;
    [successfulAuthsToday] is at most 100 and at most the number of
    recorded attempts; and the accuracy lies between 0 and 100 and is 0
    when no attempt is recorded. *)
Theorem stats_figures_are_consistent env w tzOffset now code s :
  outcome (run env (stats tzOffset now) w)
  = Returned (mkResponse code (StatsBody s)) ->
  code = 200%nat
  /\ totalRegistered s = List.length (voters w)
  /\ activeVoters s = List.length (active_templates (voters w))
  /\ (activeVoters s <= totalRegistered s)%nat
  /\ (successfulAuthsToday s <= 100)%nat
  /\ (successfulAuthsToday s <= List.length (authentication_logs w))%nat
  /\ 0 <= accuracy s <= 100
  /\ (authentication_logs w = [] -> accuracy s = 0).
Proof.
  intro Hout.
  destruct (db_rejects env RefVoters) as [e |] eqn:Hv.
  { revert Hout. unfold stats. simpl. unfold with_ref. rewrite Hv. simpl.
    discriminate. }
  destruct (db_rejects env RefAuthenticationLogs) as [e |] eqn:Hl.
  { revert Hout. unfold stats. simpl. unfold with_ref. rewrite Hv. simpl.
    unfold with_ref. rewrite Hl. simpl. discriminate. }
  rewrite (stats_answer env w tzOffset now Hv Hl) in Hout.
  injection Hout as <- <-. simpl.
  set (window := lastn 100 (authentication_logs w)).
  assert (Hwindow : (List.length window <= 100)%nat) by apply length_lastn.
  assert (Hwhole : (List.length window <= List.length (authentication_logs w))%nat).
  { unfold window, lastn. rewrite length_skipn. lia. }
  assert (Htoday :
    (List.length (filter (counted_today (start_of_local_day tzOffset now))
                    (map snd window))
     <= List.length window)%nat).
  { rewrite <- (length_map snd window). apply length_filter_le. }
  split; [reflexivity |]. split; [reflexivity |]. split; [reflexivity |].
  split.
  { unfold active_templates. rewrite <- (length_map snd (voters w)).
    apply length_filter_le. }
  split; [lia |]. split; [lia |].
  assert (Hsuccess :
    (List.length (filter is_success (map snd window)) <= List.length window)%nat).
  { rewrite <- (length_map snd window). apply length_filter_le. }
  split.
  - destruct (0 <? List.length window)%nat eqn:Hany.
    + apply Nat.ltb_lt in Hany.
      assert (Hpos : 0 < number (List.length window)).
      { unfold number. rewrite <- (Zlt_Qlt 0). lia. }
      assert (Hnonneg :
        0 <= number (List.length (filter is_success (map snd window)))).
      { unfold number. rewrite <- (Zle_Qle 0). lia. }
      assert (Hle :
        number (List.length (filter is_success (map snd window)))
        <= number (List.length window)).
      { unfold number. rewrite <- Zle_Qle. lia. }
      split.
      * apply Qmult_le_0_compat; [| discriminate].
        apply Qle_shift_div_l; [exact Hpos |].
        rewrite Qmult_0_l. exact Hnonneg.
      * setoid_replace 100 with (1 * 100) at 2 by reflexivity.
        apply Qmult_le_compat_r; [| discriminate].
        apply Qle_shift_div_r; [exact Hpos |].
        rewrite Qmult_1_l. exact Hle.
    + split; discriminate.
  - intro Hempty. unfold window. rewrite Hempty. reflexivity.
Qed.

Lemma stats_figures_are_consistent_witness :
  let s := mkStats 0 0 3 (300 # 3) in
  200%nat = 200%nat
  /\ totalRegistered s = List.length (voters three_attempts)
  /\ activeVoters s = List.length (active_templates (voters three_attempts))
  /\ (activeVoters s <= totalRegistered s)%nat
  /\ (successfulAuthsToday s <= 100)%nat
  /\ (successfulAuthsToday s
      <= List.length (authentication_logs three_attempts))%nat
  /\ 0 <= accuracy s <= 100
  /\ (authentication_logs three_attempts = [] -> accuracy s = 0).
Proof.
  apply (stats_figures_are_consistent sample_env three_attempts 0 sample_now
           200 (mkStats 0 0 3 (300 # 3))).
  vm_compute. reflexivity.
Defined.

(** X10: the two dashboard routes only read: whatever happens they leave
    the database as it was; and when a read they need is rejected they
    answer 500 with their own message whatever the error's code is. *)
Theorem dashboard_routes_only_read env w tzOffset now req :
  final (run env (stats tzOffset now) w) = w
  /\ final (run env (logs req) w) = w
  /\ (db_rejects env RefVoters <> None
      \/ db_rejects env RefAuthenticationLogs <> None ->
      outcome (run env (stats tzOffset now) w) = Returned stats_failed)
  /\ (db_rejects env RefAuthenticationLogs <> None ->
      outcome (run env (logs req) w) = Returned logs_failed).
Proof.
  split; [apply stats_effect |]. split; [apply logs_effect |]. split.
  - intro Hrejected. unfold stats. simpl. unfold with_ref.
    destruct (db_rejects env RefVoters); simpl; [reflexivity |].
    unfold with_ref.
    destruct (db_rejects env RefAuthenticationLogs); simpl; [reflexivity |].
    destruct Hrejected as [H | H]; contradiction.
  - intro Hrejected. unfold logs. simpl.
    destruct (requested_limit (req_limit req) <=? 0)%Z; simpl; [reflexivity |].
    unfold with_ref.
    destruct (db_rejects env RefAuthenticationLogs); simpl; [reflexivity |].
    contradiction.
Qed.

Lemma dashboard_routes_only_read_witness :
  outcome (run logless_env (stats 0 sample_now) three_attempts)
  = Returned stats_failed
  /\ outcome (run logless_env (logs (limit_request (Some 5%Z))) three_attempts)
     = Returned logs_failed.
Proof.
  destruct (dashboard_routes_only_read logless_env three_attempts 0 sample_now
              (limit_request (Some 5%Z))) as (_ & _ & Hstats & Hlogs).
  split; [apply Hstats; right; discriminate | apply Hlogs; discriminate].
Defined.

(** ** The recent attempts, exactly *)

Lemma log_views_renderable entries :
  Forall renderable entries -> log_views entries = inr (map view_of entries).
Proof.
  induction 1 as [| [key log] rest Hok _ IH]; simpl; [reflexivity |].
  unfold renderable in Hok. simpl in Hok.
  destruct (Z.leb_spec (Z.abs (AuthLog.timestamp log)) MAX_TIME_VALUE);
    [| lia].
  rewrite IH. reflexivity.
Qed.

Lemma Forall_lastn {A : Type} (P : A -> Prop) (n : nat) (l : list A) :
  Forall P l -> Forall P (lastn n l).
Proof.
  intro H. unfold lastn. rewrite <- (firstn_skipn (List.length l - n) l) in H.
  apply Forall_app in H. tauto.
Qed.

(** X11: over a log stamped in key order whose timestamps are valid dates,
    and with the log readable, [/api/dashboard/logs] returns exactly the
    most recent attempts, newest first and each under its push key: as many
    as the effective limit allows (10 when the requested value is missing,
    not a number or 0; never more than 50) or as the log holds; and a
    negative requested value is answered 500. *)
Theorem recent_attempts_are_the_latest env req w :
  db_rejects env RefAuthenticationLogs = None ->
  stamped_in_order (authentication_logs w) ->
  Forall renderable (authentication_logs w) ->
  let limit := requested_limit (req_limit req) in
  let latest := lastn (Z.to_nat limit) (authentication_logs w) in
  ((0 < limit)%Z ->
   outcome (run env (logs req) w)
   = Returned (mkResponse 200 (LogsBody (rev (map view_of latest))))
   /\ List.length latest
      = Nat.min (Z.to_nat limit) (List.length (authentication_logs w)))
  /\ ((limit <= 0)%Z -> outcome (run env (logs req) w) = Returned logs_failed)
  /\ (req_limit req = None \/ req_limit req = Some 0%Z -> limit = 10%Z)
  /\ (forall n, req_limit req = Some n -> (0 < n <= 50)%Z -> limit = n)
  /\ (forall n, req_limit req = Some n -> (50 < n)%Z -> limit = 50%Z)
  /\ (forall n, req_limit req = Some n -> (n < 0)%Z -> (limit < 0)%Z).
Proof.
  intros Hdb Hordered Hvalid limit latest.
  split; [| split].
  - intro Hpos. unfold logs. simpl. fold limit.
    destruct (Z.leb_spec limit 0); [lia |]. simpl.
    unfold with_ref. rewrite Hdb. simpl.
    rewrite by_timestamp_limit_to_last_in_order by exact Hordered.
    fold latest. rewrite (log_views_renderable latest).
    + simpl. split; [reflexivity |].
      unfold latest, lastn. rewrite length_skipn. lia.
    + unfold latest. apply Forall_lastn. exact Hvalid.
  - intro Hneg. unfold logs. simpl. fold limit.
    destruct (Z.leb_spec limit 0); [reflexivity | lia].
  - subst limit. unfold requested_limit.
    split; [intros [-> | ->]; reflexivity |].
    split; [| split]; intros n -> Hn;
      destruct (Z.eqb_spec n 0); lia.
Qed.

Lemma recent_attempts_are_the_latest_witness :
  outcome (run sample_env (logs (limit_request (Some 2%Z))) three_attempts)
  = Returned
      (mkResponse 200
         (LogsBody
            (map view_of [success_at 2 1705708980000;
                          success_at 1 1705708920000])))
  /\ outcome (run sample_env (logs (limit_request (Some (-1)%Z))) three_attempts)
     = Returned logs_failed.
Proof.
  assert (Hordered : stamped_in_order (authentication_logs three_attempts))
    by (unfold stamped_in_order, three_attempts; simpl;
        repeat constructor; simpl; lia).
  assert (Hvalid : Forall renderable (authentication_logs three_attempts))
    by (repeat constructor; unfold renderable, MAX_TIME_VALUE; simpl; lia).
  split.
  - apply (recent_attempts_are_the_latest sample_env (limit_request (Some 2%Z))
             three_attempts eq_refl Hordered Hvalid).
    reflexivity.
  - apply (recent_attempts_are_the_latest sample_env
             (limit_request (Some (-1)%Z)) three_attempts eq_refl Hordered
             Hvalid).
    discriminate.
Defined.

(** ** What the requests served in turn keep *)

(** What one handler run does to the database: the clock is not touched,
    both logs only grow, a new attempt carries the server time, and the
    templates are as before or one key was set. *)
Lemma handle_effect env i w :
  let w' := final (run env (handle env i) w) in
  server_time w' = server_time w
  /\ (exists newer,
        registration_logs w' = registration_logs w ++ newer)
  /\ (exists newer,
        authentication_logs w' = authentication_logs w ++ newer
        /\ Forall (fun entry => AuthLog.timestamp (snd entry) = server_time w)
             newer)
  /\ (voters w' = voters w
      \/ exists key x, voters w' = set_child key x (voters w)).
Proof.
  assert (Hsame : forall w0 : World,
    w0 = w ->
    server_time w0 = server_time w
    /\ (exists newer, registration_logs w0 = registration_logs w ++ newer)
    /\ (exists newer,
          authentication_logs w0 = authentication_logs w ++ newer
          /\ Forall (fun entry => AuthLog.timestamp (snd entry) = server_time w)
               newer)
    /\ (voters w0 = voters w
        \/ exists key x, voters w0 = set_child key x (voters w))).
  { intros w0 ->. split; [reflexivity |].
    split; [exists []; rewrite app_nil_r; reflexivity |].
    split; [exists []; rewrite app_nil_r; split; [reflexivity | constructor] |].
    left. reflexivity. }
  destruct i as [req voterId registrationDate | req | tzOffset now | req];
    cbn [handle].
  - destruct (register_cases env req voterId registrationDate w)
      as [(Hfinal & _)
         | (value & faceResponse & _ & _ & _ & _
            & [(e & _ & Hfinal & _) | (Hfinal & _)])].
    + apply Hsame. exact Hfinal.
    + rewrite Hfinal. simpl. split; [reflexivity |].
      split; [exists []; rewrite app_nil_r; reflexivity |].
      split; [exists []; rewrite app_nil_r; split; [reflexivity | constructor] |].
      right. eauto.
    + rewrite Hfinal. simpl. split; [reflexivity |].
      split; [eexists; reflexivity |].
      split; [exists []; rewrite app_nil_r; split; [reflexivity | constructor] |].
      right. eauto.
  - destruct (authenticate_cases env req w)
      as [(Hfinal & _) | (probe & best & _ & Hfinal & _)].
    + apply Hsame. exact Hfinal.
    + rewrite Hfinal. simpl. split; [reflexivity |].
      split; [exists []; rewrite app_nil_r; reflexivity |].
      split; [| left; reflexivity].
      eexists. split; [reflexivity |]. repeat constructor.
  - apply Hsame. apply stats_effect.
  - apply Hsame. apply logs_effect.
Qed.

(** X12: the audit trail is append-only: whatever requests are served, in
    whatever order and with whatever outcome, every entry of the
    registration log and of the attempt log stays where it is, unchanged;
    the logs only grow at their end. *)
Theorem audit_logs_only_grow env incoming :
  forall w,
    (exists newer,
       registration_logs (served env incoming w)
       = registration_logs w ++ newer)
    /\ (exists newer,
          authentication_logs (served env incoming w)
          = authentication_logs w ++ newer).
Proof.
  induction incoming as [| [t i] incoming IH]; intro w; simpl.
  - split; exists []; rewrite app_nil_r; reflexivity.
  - destruct (handle_effect env i (at_time t w))
      as (_ & [newer_r Hr] & [newer_a [Ha _]] & _).
    destruct (IH (final (run env (handle env i) (at_time t w))))
      as ([later_r Hlr] & [later_a Hla]).
    split.
    + exists (newer_r ++ later_r). rewrite Hlr, Hr, app_assoc. reflexivity.
    + exists (newer_a ++ later_a). rewrite Hla, Ha, app_assoc. reflexivity.
Qed.



(** ** The store as a map *)

Lemma compare_flip key k :
  String.compare key k = Gt -> String.compare k key = Lt.
Proof.
  intro H. rewrite String.compare_antisym, H. reflexivity.
Qed.

Lemma compare_lt_trans a b c :
  String.compare a b = Lt -> String.compare b c = Lt ->
  String.compare a c = Lt.
Proof.
  intros Hab Hbc.
  apply String_as_OT.cmp_lt.
  apply String_as_OT.lt_trans with b; apply String_as_OT.cmp_lt; assumption.
Qed.

Lemma Forall_set_child {A : Type} (P : string * A -> Prop) key (x : A) :
  forall children,
    P (key, x) -> Forall P children -> Forall P (set_child key x children).
Proof.
  induction children as [| [k y] rest IH]; intros Hnew Hall; simpl.
  - constructor; [exact Hnew | constructor].
  - inversion Hall; subst.
    destruct (String.compare key k); constructor; auto.
Qed.

Lemma set_child_keeps_keys_in_order {A : Type} key (x : A) :
  forall children,
    keys_in_order children -> keys_in_order (set_child key x children).
Proof.
  unfold keys_in_order.
  induction children as [| [k y] rest IH]; intro Hsorted; simpl.
  - constructor; constructor.
  - apply StronglySorted_inv in Hsorted. destruct Hsorted as [Hrest Hk].
    destruct (String.compare key k) eqn:Hcmp.
    + apply String.compare_eq_iff in Hcmp. subst k.
      constructor; assumption.
    + constructor; [constructor; assumption |].
      constructor; [exact Hcmp |].
      eapply Forall_impl; [| exact Hk]. simpl. intros c Hc.
      eapply compare_lt_trans; eassumption.
    + constructor; [apply IH; exact Hrest |].
      apply Forall_set_child; [| exact Hk].
      simpl. apply compare_flip. exact Hcmp.
Qed.




(** A registration under the key of a stored template overwrites it. *)
Example registration_under_a_taken_key :
  map fst
    (voters
       (served sample_env [(6000%Z, PostRegister ada_request "B" "now")]
          two_templates))
  = ["A"; "B"]
  /\ emails
       (voters
          (served sample_env [(6000%Z, PostRegister ada_request "B" "now")]
             two_templates))
     = ["a@example.org"; "ada@example.org"].
Proof. split; reflexivity. Qed.

(** ** When no features can be extracted *)

(** X15: [/api/authenticate] stops at a failed extraction: when the face
    service cannot be reached ([ECONNREFUSED]) the answer is 503, when it
    answers [success: false] the answer is 400 with its error after
    "Face detection failed: "; either way the extraction is the only call
    made, so the templates are never read, nothing is compared and no
    attempt is logged. *)
Theorem failed_extraction_stops_identification env req w faceData :
  validate_authentication env (req_body req) = inr faceData ->
  let r := run env (authenticate env req) w in
  (forall e,
     extract_features env faceData = Rejected e ->
     has_code e "ECONNREFUSED" = true ->
     r = mkRun (Returned service_unavailable) w
           [Called (ExtractFeatures faceData)])
  /\ (forall faceResponse,
        extract_features env faceData = Fulfilled faceResponse ->
        extract_success faceResponse = false ->
        r = mkRun (Returned (face_not_detected faceResponse)) w
              [Called (ExtractFeatures faceData)]).
Proof.
  intros Hval r. subst r. unfold authenticate. rewrite Hval. split.
  - intros e Hext Hcode. simpl. rewrite Hext. simpl.
    rewrite run_service_catch_eq. simpl.
    unfold service_failure. rewrite Hcode. reflexivity.
  - intros faceResponse Hext Hfail. simpl. rewrite Hext. simpl.
    rewrite Hfail. reflexivity.
Qed.

Lemma failed_extraction_stops_identification_witness :
  run unreachable_env (authenticate unreachable_env probe_request)
    example_population
  = mkRun (Returned service_unavailable) example_population
      [Called (ExtractFeatures "img")]
  /\ run faceless_env (authenticate faceless_env probe_request)
       example_population
     = mkRun
         (Returned
            (face_not_detected
               (mkExtract false [] "Face could not be detected")))
         example_population [Called (ExtractFeatures "img")].
Proof.
  split.
  - destruct (failed_extraction_stops_identification unreachable_env
                probe_request example_population "img" eq_refl)
      as [Hunreachable _].
    apply (Hunreachable refused); reflexivity.
  - destruct (failed_extraction_stops_identification faceless_env
                probe_request example_population "img" eq_refl)
      as [_ Hfaceless].
    apply (Hfaceless (mkExtract false [] "Face could not be detected"));
      reflexivity.
Defined.

(** X16: [/api/register] checks the email before it asks for features and
    stores nothing unless features were extracted: for a valid request
    whose email is free, an unreachable face service gives 503 and an
    answer with [success: false] gives 400 "Face detection failed: ...",
    and in both cases the only calls made are the email query and the
    extraction, so no template and no registration entry is written. *)
Theorem failed_extraction_stops_registration
  env req voterId registrationDate w value :
  validate_registration env (req_body req) = inr value ->
  db_rejects env RefVoters = None ->
  ~ In (reg_email value) (emails (voters w)) ->
  let r := run env (register env req voterId registrationDate) w in
  let calls :=
    [Called (VotersByEmailOnce (reg_email value));
     Called (ExtractFeatures (reg_faceData value))] in
  (forall e,
     extract_features env (reg_faceData value) = Rejected e ->
     has_code e "ECONNREFUSED" = true ->
     r = mkRun (Returned service_unavailable) w calls)
  /\ (forall faceResponse,
        extract_features env (reg_faceData value) = Fulfilled faceResponse ->
        extract_success faceResponse = false ->
        r = mkRun (Returned (face_not_detected faceResponse)) w calls).
Proof.
  intros Hval Hdb Hfree r calls. subst r calls.
  assert (Hnone :
    filter (fun c => Voter.email (snd c) =? reg_email value) (voters w) = []).
  { clear Hval Hdb. induction (voters w) as [| c rest IH]; [reflexivity |].
    simpl in *. destruct (String.eqb_spec (Voter.email (snd c)) (reg_email value)).
    - exfalso. apply Hfree. left. assumption.
    - apply IH. intro H. apply Hfree. right. exact H. }
  unfold register. rewrite Hval. split.
  - intros e Hext Hcode. simpl. unfold with_ref. rewrite Hdb. simpl.
    rewrite Hnone. simpl. rewrite Hext. simpl.
    rewrite run_service_catch_eq. simpl.
    unfold service_failure. rewrite Hcode. reflexivity.
  - intros faceResponse Hext Hfail. simpl. unfold with_ref. rewrite Hdb. simpl.
    rewrite Hnone. simpl. rewrite Hext. simpl. rewrite Hfail. reflexivity.
Qed.

Lemma failed_extraction_stops_registration_witness :
  run unreachable_env (register unreachable_env ada_request "uuid-1" "now")
    example_population
  = mkRun (Returned service_unavailable) example_population
      [Called (VotersByEmailOnce "ada@example.org");
       Called (ExtractFeatures "img")]
  /\ run faceless_env (register faceless_env ada_request "uuid-1" "now")
       example_population
     = mkRun
         (Returned
            (face_not_detected
               (mkExtract false [] "Face could not be detected")))
         example_population
         [Called (VotersByEmailOnce "ada@example.org");
          Called (ExtractFeatures "img")].
Proof.
  assert (Hfree :
    ~ In "ada@example.org" (emails (voters example_population)))
    by (simpl; intuition discriminate).
  split.
  - destruct (failed_extraction_stops_registration unreachable_env ada_request
                "uuid-1" "now" example_population
                (mkRegistration "Ada" "ada@example.org" "img")
                eq_refl eq_refl Hfree) as [Hunreachable _].
    apply (Hunreachable refused); reflexivity.
  - destruct (failed_extraction_stops_registration faceless_env ada_request
                "uuid-1" "now" example_population
                (mkRegistration "Ada" "ada@example.org" "img")
                eq_refl eq_refl Hfree) as [_ Hfaceless].
    apply (Hfaceless (mkExtract false [] "Face could not be detected"));
      reflexivity.
Defined.

(** * The browser client against the server *)

(** X17: with this server the page never shows a failed authentication as
    such: a 401 is not [ok], so [makeRequest] throws "API request failed"
    and [performAuthentication] ends in its [catch] block with the system
    error screen; its "below threshold" branch, with the confidence of the
    rejected attempt, is never reached.  A 200 shows the name and id of the
    authenticated voter, and any other answer the system error screen with
    the server's error message. *)
Theorem failed_authentication_shows_as_system_error env req w :
  exists response,
    outcome (run env (authenticate env req) w) = Returned response
    /\ let screen := performAuthentication (Fulfilled response) in
       (status response = 401%nat ->
        screen = error_screen (mkError None "API request failed"))
       /\ (status response = 200%nat ->
           exists v,
             In v (active_templates (voters w))
             /\ resultClass screen = "result-status success"
             /\ voterDetails screen = Some (Voter.name v, Voter.id v))
       /\ (status response <> 200%nat ->
           exists error, screen = error_screen error)
       /\ statusText screen <> "Authentication failed - Face not recognized".
Proof.
  destruct (authenticate_cases env req w)
    as [(_ & resp & Hout & Herror & Hstatus)
       | (probe & best & Hfound & _ & Hout)].
  - exists resp. split; [exact Hout |].
    destruct resp as [code [error | | | | |]]; simpl in Herror;
      try contradiction.
    simpl in Hstatus. unfold performAuthentication, makeRequest, response_ok.
    simpl.
    destruct Hstatus as [-> | [-> | ->]]; simpl;
      (split; [discriminate |]);
      (split; [discriminate |]);
      (split; [intros _; eexists; reflexivity | discriminate]).
  - exists (verdict best). split; [exact Hout |].
    unfold verdict.
    destruct Hfound as [-> | (v & c & -> & Hin & _)]; simpl.
    + unfold performAuthentication. simpl.
      split; [reflexivity |]. split; [discriminate |].
      split; [intros _; eexists; reflexivity | discriminate].
    + destruct (Qgeb (compare_confidence c) CONFIDENCE_THRESHOLD);
        unfold performAuthentication; simpl.
      * split; [discriminate |].
        split; [intros _; exists v; auto |].
        split; [intro H; exfalso; apply H; reflexivity | discriminate].
      * split; [reflexivity |]. split; [discriminate |].
        split; [intros _; eexists; reflexivity | discriminate].
Qed.

(** The near miss of 0.70 reaches the page as a system error. *)
Example near_miss_on_the_page :
  option_map performAuthentication
    (match outcome (run sample_env (authenticate sample_env probe_request)
                      near_miss) with
     | Returned response => Some (Fulfilled response)
     | Uncaught _ => None
     end)
  = Some (error_screen (mkError None "API request failed")).
Proof. reflexivity. Qed.

(** X18: the toast of [submitRegistration] tells what the server did: it
    is the success toast exactly when [/api/register] answered 201, and
    otherwise an error toast; for a request that passes validation while
    its email is stored already the toast reads "Email already
    registered".  Without a captured face no request is made at all. *)
Theorem registration_toast_tells_the_outcome
  env w ip voterId registrationDate name email image :
  let req := mkRequest (registration_body name email image) ip None in
  let r := run env (register env req voterId registrationDate) w in
  let fetch :=
    fun b =>
      responded
        (outcome
           (run env (register env (mkRequest b ip None) voterId
                       registrationDate) w)) in
  let shown := submitRegistration (Some image) name email fetch in
  (shown = ("Registration completed successfully!", "success")
   <-> status_of (outcome r) = 201%nat)
  /\ (snd shown = "success" \/ snd shown = "error")
  /\ (forall value,
        validate_registration env (req_body req) = inr value ->
        db_rejects env RefVoters = None ->
        In (reg_email value) (emails (voters w)) ->
        shown = ("Email already registered", "error"))
  /\ (forall anything,
        submitRegistration None name email anything
        = ("Please capture your face first", "error")).
Proof.
  intros req r fetch shown.
  assert (Hshown :
    shown
    = match makeRequest (responded (outcome r)) with
      | Fulfilled _ => ("Registration completed successfully!", "success")
      | Rejected error =>
          (or_default (Some (message error))
             "Registration failed. Please try again.", "error")
      end) by reflexivity.
  split; [| split; [| split]].
  - rewrite Hshown.
    destruct (register_cases env req voterId registrationDate w)
      as [(_ & resp & Hout & Herror & Hstatus)
         | (value & faceResponse & _ & _ & _ & _
            & [(e & _ & _ & Hout) | (_ & Hout)])];
      fold r in Hout; rewrite Hout; simpl.
    + destruct resp as [code body]. simpl in *.
      unfold makeRequest, response_ok. simpl.
      destruct Hstatus as [-> | [-> | [-> | ->]]]; simpl;
        split; intro H; discriminate H.
    + unfold service_failure, makeRequest, response_ok.
      destruct (has_code e "ECONNREFUSED"); simpl;
        split; intro H; discriminate H.
    + unfold makeRequest, response_ok. simpl. split; reflexivity.
  - rewrite Hshown. destruct (makeRequest (responded (outcome r))); simpl; auto.
  - intros value Hval Hdb Hstored. rewrite Hshown.
    destruct (register_conflict env req voterId registrationDate w value
                Hval Hdb (in_emails_match _ _ Hstored)) as [Hout _].
    fold r in Hout. rewrite Hout. reflexivity.
  - reflexivity.
Qed.

Lemma registration_toast_tells_the_outcome_witness :
  submitRegistration (Some "img") "Ada" "ada@example.org"
    (fun b =>
       responded
         (outcome
            (run sample_env
               (register sample_env (mkRequest b "10.0.0.7" None) "uuid-1"
                  "now")
               (world_of
                  [template "R" "ada@example.org" [99 # 100] "revoked"]))))
  = ("Email already registered", "error").
Proof.
  destruct (registration_toast_tells_the_outcome sample_env
              (world_of [template "R" "ada@example.org" [99 # 100] "revoked"])
              "10.0.0.7" "uuid-1" "now" "Ada" "ada@example.org" "img")
    as (_ & _ & Hconflict & _).
  apply (Hconflict (mkRegistration "Ada" "ada@example.org" "img")).
  - reflexivity.
  - reflexivity.
  - left. reflexivity.
Defined.

(** ** The dashboard table *)


(** What the page shows of the log when the server can read it. *)
Lemma dashboard_table env ip w :
  db_rejects env RefAuthenticationLogs = None ->
  stamped_in_order (authentication_logs w) ->
  Forall renderable (authentication_logs w) ->
  loadAuthenticationLogs
    (responded (outcome (run env (logs (dashboard_logs_request ip)) w)))
  = Rows (map log_row
            (rev (map view_of (lastn 10 (authentication_logs w))))).
Proof.
  intros Hdb Hordered Hvalid. unfold logs. simpl.
  unfold with_ref. rewrite Hdb. simpl.
  change (Pos.to_nat 10) with 10%nat.
  rewrite by_timestamp_limit_to_last_in_order by exact Hordered.
  rewrite (log_views_renderable (lastn 10 (authentication_logs w)))
    by (apply Forall_lastn; exact Hvalid).
  reflexivity.
Qed.

(** X19: the dashboard table, which asks for 10 entries, shows the (at
    most) 10 most recent attempts, newest first, one row each, with
    "Unknown" for an attempt that names no voter, when the server can read
    a log that is stamped in order; and "Unable to load logs" when the
    server cannot read the log. *)
Theorem dashboard_table_shows_latest_attempts env ip w :
  (db_rejects env RefAuthenticationLogs = None ->
   stamped_in_order (authentication_logs w) ->
   Forall renderable (authentication_logs w) ->
   exists rows,
     loadAuthenticationLogs
       (responded (outcome (run env (logs (dashboard_logs_request ip)) w)))
     = Rows rows
     /\ rows
        = map log_row (rev (map view_of (lastn 10 (authentication_logs w))))
     /\ List.length rows = Nat.min 10 (List.length (authentication_logs w))
     /\ StronglySorted (fun a b => (row_time b <= row_time a)%Z) rows
     /\ (forall row, In row rows ->
           row_name row = "Unknown"
           \/ exists entry,
                In entry (authentication_logs w)
                /\ AuthLog.voterName (snd entry) = Some (row_name row)))
  /\ (db_rejects env RefAuthenticationLogs <> None ->
      loadAuthenticationLogs
        (responded (outcome (run env (logs (dashboard_logs_request ip)) w)))
      = UnableToLoad).
Proof.
  split.
  - intros Hdb Hordered Hvalid. eexists.
    split; [apply dashboard_table; assumption |].
    split; [reflexivity |]. split; [| split].
    + rewrite length_map, length_rev, length_map.
      unfold lastn. rewrite length_skipn. lia.
    + rewrite <- map_rev.
      apply (sorted_skipn _ (List.length (authentication_logs w) - 10))
        in Hordered.
      fold (lastn 10 (authentication_logs w)) in Hordered.
      apply (sorted_rev
               (fun a b : string * AuthLog.t =>
                  (AuthLog.timestamp (snd a) <= AuthLog.timestamp (snd b))%Z))
        in Hordered.
      rewrite map_map.
      induction Hordered as [| entry rest _ IH Hentry]; simpl;
        constructor; [exact IH |].
      rewrite Forall_map. exact Hentry.
    + intros row Hrow. apply in_map_iff in Hrow.
      destruct Hrow as (view & <- & Hview).
      apply in_rev in Hview. apply in_map_iff in Hview.
      destruct Hview as (entry & <- & Hentry).
      assert (Hin : In entry (authentication_logs w)).
      { unfold lastn in Hentry.
        rewrite <- (firstn_skipn (List.length (authentication_logs w) - 10)).
        apply in_or_app. right. exact Hentry. }
      unfold log_row, view_of, or_default. simpl.
      destruct (AuthLog.voterName (snd entry)) as [n |] eqn:Hname;
        [| left; reflexivity].
      destruct (n =? ""); [left; reflexivity |].
      right. exists entry. auto.
  - intro Hrejected. unfold logs. simpl. unfold with_ref.
    destruct (db_rejects env RefAuthenticationLogs); [reflexivity |].
    contradiction.
Qed.

Lemma dashboard_table_shows_latest_attempts_witness :
  loadAuthenticationLogs
    (responded
       (outcome (run sample_env (logs (dashboard_logs_request "10.0.0.7"))
                   three_attempts)))
  = Rows (map log_row
            (rev (map view_of (authentication_logs three_attempts))))
  /\ loadAuthenticationLogs
       (responded
          (outcome (run logless_env (logs (dashboard_logs_request "10.0.0.7"))
                      three_attempts)))
     = UnableToLoad.
Proof.
  split.
  - destruct (dashboard_table_shows_latest_attempts sample_env "10.0.0.7"
                three_attempts) as [Hshown _].
    destruct Hshown as (rows & Htable & -> & _).
    + reflexivity.
    + unfold stamped_in_order, three_attempts. simpl.
      repeat constructor; simpl; lia.
    + repeat constructor; unfold renderable, MAX_TIME_VALUE; simpl; lia.
    + exact Htable.
  - destruct (dashboard_table_shows_latest_attempts logless_env "10.0.0.7"
                three_attempts) as [_ Hfailed].
    apply Hfailed. discriminate.
Defined.



(** The rejected attempt at 0.70 is listed under the candidate's name. *)
Example near_miss_on_the_dashboard :
  loadAuthenticationLogs
    (responded
       (outcome
          (run sample_env (logs (dashboard_logs_request "10.0.0.7"))
             (final (run sample_env (authenticate sample_env probe_request)
                       near_miss)))))
  = Rows [mkLogRow 5000 "A" "error" "failed" (70 # 100)].
Proof. reflexivity. Qed.

(** A rejected attempt whose best candidate was registered under an empty
    name is listed as "Unknown", its confidence of 0.70 notwithstanding. *)
Example nameless_candidate_is_listed_unknown :
  loadAuthenticationLogs
    (responded
       (outcome
          (run sample_env (logs (dashboard_logs_request "10.0.0.7"))
             (final (run sample_env (authenticate sample_env probe_request)
                       nameless_near_miss)))))
  = Rows [mkLogRow 5000 "Unknown" "error" "failed" (70 # 100)].
Proof. reflexivity. Qed.

(** While the server clock is behind the log, a new attempt is on none of
    the ten rows: the clock hypothesis cannot be dropped. *)
Example attempt_behind_the_log_is_not_listed :
  match
    loadAuthenticationLogs
      (responded
         (outcome
            (run sample_env (logs (dashboard_logs_request "10.0.0.7"))
               (final (run sample_env (authenticate sample_env probe_request)
                         (at_time 5000 busy_day))))))
  with
  | Rows rows =>
      List.length rows = 10%nat
      /\ forallb (fun row => negb (row_time row =? 5000)%Z) rows = true
  | UnableToLoad => False
  end.
Proof. vm_compute. split; reflexivity. Qed.

(** ** The reported confidence under partial failures *)

(** A scan that completes ends on a confidence that no answer beats. *)
Lemma scan_dominates env probe entries :
  forall bm bc w best,
    outcome (run env (scan probe entries bm bc) w) = Returned best ->
    bc <= snd best
    /\ forall v c,
         In v (active_templates entries) ->
         compare_faces env probe (Voter.faceEncoding v) = Fulfilled c ->
         compare_success c = true ->
         compare_confidence c <= snd best.
Proof.
  unfold active_templates.
  induction entries as [| [voterId voter] rest IH]; intros bm bc w best;
    simpl.
  - intro H. injection H as <-. simpl. split; [apply Qle_refl |].
    intros v c [].
  - case_active voter.
    + destruct (compare_faces env probe (Voter.faceEncoding voter)) as [c0 | e]
        eqn:Hanswer; simpl; [| discriminate].
      destruct (compare_success c0) eqn:Hok; simpl.
      * destruct (Qgtb (compare_confidence c0) bc) eqn:E; intro Hrun;
          destruct (IH _ _ _ _ Hrun) as [Hstart Hrest].
        -- apply Qgtb_true in E. split.
           ++ eapply Qle_trans; [apply Qlt_le_weak; exact E | exact Hstart].
           ++ intros v c [<- | Hin] Hc Hsuccess; [| eauto].
              rewrite Hanswer in Hc. injection Hc as <-. exact Hstart.
        -- apply Qgtb_false in E. split; [exact Hstart |].
           intros v c [<- | Hin] Hc Hsuccess; [| eauto].
           rewrite Hanswer in Hc. injection Hc as <-.
           eapply Qle_trans; eassumption.
      * intro Hrun. destruct (IH _ _ _ _ Hrun) as [Hstart Hrest].
        split; [exact Hstart |].
        intros v c [<- | Hin] Hc Hsuccess; [| eauto].
        rewrite Hanswer in Hc. injection Hc as <-. congruence.
    + intro Hrun. destruct (IH _ _ _ _ Hrun) as [Hstart Hrest].
      split; [exact Hstart |]. exact Hrest.
Qed.

(** X21: whatever the face service does, the confidence in a 200 or 401
    response is never negative and no active template beats it: every
    confidence the service answers with [success: true] when the encoding
    extracted from the request's face is compared with an active template
    of the store is at most the confidence reported, so skipped comparisons
    can only lower the result, never raise it. *)
Theorem reported_confidence_dominates env req w response confidence :
  outcome (run env (authenticate env req) w) = Returned response ->
  reported_confidence response = Some confidence ->
  0 <= confidence
  /\ exists faceData faceResponse,
       validate_authentication env (req_body req) = inr faceData
       /\ extract_features env faceData = Fulfilled faceResponse
       /\ forall v c,
            In v (active_templates (voters w)) ->
            compare_faces env (extract_faceEncoding faceResponse)
              (Voter.faceEncoding v)
            = Fulfilled c ->
            compare_success c = true ->
            compare_confidence c <= confidence.
Proof.
  unfold authenticate.
  destruct (validate_authentication env (req_body req)) as [details | faceData]
    eqn:Hvalid; simpl.
  { intros H. injection H as <-. discriminate. }
  destruct (extract_features env faceData) as [faceResponse | e] eqn:Hface;
    simpl.
  2: { rewrite run_service_catch_eq. simpl. intros H. injection H as <-.
       unfold service_failure. destruct (has_code e "ECONNREFUSED");
         discriminate. }
  destruct (extract_success faceResponse); simpl.
  2: { intros H. injection H as <-. discriminate. }
  unfold with_ref.
  destruct (db_rejects env RefVoters) as [e |]; simpl.
  { rewrite run_service_catch_eq. simpl. intros H. injection H as <-.
    unfold service_failure. destruct (has_code e "ECONNREFUSED");
      discriminate. }
  rewrite run_try_catch_bind.
  pose proof (scan_dominates env (extract_faceEncoding faceResponse)
                (voters w) None 0 w) as Hscan.
  destruct (run env (scan (extract_faceEncoding faceResponse) (voters w) None 0) w)
    as [out wf t]. simpl in *.
  destruct out as [[bestMatch bestConfidence] | e]; simpl.
  - destruct (Hscan _ eq_refl) as [Hnonneg Hmax]. simpl in *.
    unfold with_ref.
    destruct (db_rejects env RefAuthenticationLogs) as [e |]; simpl.
    + rewrite run_service_catch_eq. simpl. intros H. injection H as <-.
      unfold service_failure. destruct (has_code e "ECONNREFUSED");
        discriminate.
    + destruct (Qgeb bestConfidence CONFIDENCE_THRESHOLD), bestMatch; simpl;
        rewrite ?run_service_catch_eq; simpl;
        intros H; injection H as <-; simpl; try discriminate;
        intros H; injection H as <-;
        (split; [exact Hnonneg |]);
        exists faceData, faceResponse;
        (split; [reflexivity |]); (split; [exact Hface |]); exact Hmax.
  - rewrite run_service_catch_eq. simpl. intros H. injection H as <-.
    unfold service_failure. destruct (has_code e "ECONNREFUSED");
      discriminate.
Qed.

Lemma reported_confidence_dominates_witness :
  0 <= 92 # 100
  /\ exists faceData faceResponse,
       validate_authentication sample_env (req_body probe_request)
       = inr faceData
       /\ extract_features sample_env faceData = Fulfilled faceResponse
       /\ forall v c,
            In v (active_templates (voters flaky_free)) ->
            compare_faces sample_env (extract_faceEncoding faceResponse)
              (Voter.faceEncoding v)
            = Fulfilled c ->
            compare_success c = true ->
            compare_confidence c <= 92 # 100.
Proof.
  apply (reported_confidence_dominates sample_env probe_request flaky_free
           (mkResponse 200
              (AuthenticatedBody "Authentication successful"
                 (mkVoterView "B" "B" "b@example.org") (92 # 100))));
    reflexivity.
Defined.

(** ** Requests in flight together *)

(** No awaited call of the handlers rewrites a log entry or breaks the order
    of the keys. *)
Lemma perform_effect env {X : Type} (op : Op X) w :
  let w' := snd (perform env op w) in
  (exists newer, registration_logs w' = registration_logs w ++ newer)
  /\ (exists newer, authentication_logs w' = authentication_logs w ++ newer)
  /\ (keys_in_order (voters w) -> keys_in_order (voters w')).
Proof.
  assert (Hsame :
    (exists newer, registration_logs w = registration_logs w ++ newer)
    /\ (exists newer, authentication_logs w = authentication_logs w ++ newer)
    /\ (keys_in_order (voters w) -> keys_in_order (voters w))).
  { split; [exists []; rewrite app_nil_r; reflexivity |].
    split; [exists []; rewrite app_nil_r; reflexivity | auto]. }
  destruct op; simpl; unfold with_ref;
    try (destruct (_ <=? 0)%Z; simpl; [exact Hsame |]);
    try (destruct (db_rejects env _); simpl);
    try exact Hsame.
  - split; [exists []; rewrite app_nil_r; reflexivity |].
    split; [exists []; rewrite app_nil_r; reflexivity |].
    apply set_child_keeps_keys_in_order.
  - split; [eexists; reflexivity |].
    split; [exists []; rewrite app_nil_r; reflexivity | auto].
  - split; [exists []; rewrite app_nil_r; reflexivity |].
    split; [eexists; reflexivity | auto].
Qed.

(** X22: however the steps of the requests in flight are interleaved at
    their [await]s, the database keeps what it keeps for requests served in
    turn: every entry of the registration log and of the attempt log stays
    in place unchanged, and the keys of [/voters] stay in strictly
    increasing order. *)
Theorem interleaving_keeps_the_audit_trail env schedule :
  forall (pending : list (Async Response)) w,
    let w' := snd (interleave env schedule pending w) in
    (exists newer, registration_logs w' = registration_logs w ++ newer)
    /\ (exists newer,
          authentication_logs w' = authentication_logs w ++ newer)
    /\ (keys_in_order (voters w) -> keys_in_order (voters w')).
Proof.
  induction schedule as [| i later IH]; intros pending w; simpl.
  - split; [exists []; rewrite app_nil_r; reflexivity |].
    split; [exists []; rewrite app_nil_r; reflexivity | auto].
  - destruct (nth_error pending i) as [p |]; [| apply IH].
    assert (Hstep :
      (exists newer,
         registration_logs (snd (resume env p w))
         = registration_logs w ++ newer)
      /\ (exists newer,
            authentication_logs (snd (resume env p w))
            = authentication_logs w ++ newer)
      /\ (keys_in_order (voters w) ->
          keys_in_order (voters (snd (resume env p w))))).
    { destruct p as [resp | e | X op k]; simpl.
      - split; [exists []; rewrite app_nil_r; reflexivity |].
        split; [exists []; rewrite app_nil_r; reflexivity | auto].
      - split; [exists []; rewrite app_nil_r; reflexivity |].
        split; [exists []; rewrite app_nil_r; reflexivity | auto].
      - pose proof (perform_effect env op w) as Hop.
        destruct (perform env op w) as [s w1]. exact Hop. }
    destruct (resume env p w) as [p' w1]. simpl in Hstep.
    destruct Hstep as ([nr Hr] & [na Ha] & Hkeys).
    destruct (IH (replace_nth i p' pending) w1)
      as ([lr Hlr] & [la Hla] & Hlater).
    split; [| split].
    + exists (nr ++ lr). rewrite Hlr, Hr, app_assoc. reflexivity.
    + exists (na ++ la). rewrite Hla, Ha, app_assoc. reflexivity.
    + auto.
Qed.

(** ** The start of the day *)

(** X23: the instant [setHours(0, 0, 0, 0)] yields is at or before the
    clock reading and less than a day before it, it is a local midnight,
    and taking it again changes nothing; so an attempt counted as today's
    by [/api/dashboard/stats] and not stamped in the future is less than 24
    hours old. *)
Theorem start_of_local_day_is_todays_midnight tzOffset now :
  let today := start_of_local_day tzOffset now in
  (today <= now < today + MS_PER_DAY)%Z
  /\ ((today - tzOffset * MS_PER_MINUTE) mod MS_PER_DAY = 0)%Z
  /\ start_of_local_day tzOffset today = today
  /\ forall log,
       counted_today today log = true ->
       (AuthLog.timestamp log <= now)%Z ->
       (now - MS_PER_DAY < AuthLog.timestamp log)%Z.
Proof.
  intro today. subst today. unfold start_of_local_day, MS_PER_DAY.
  set (local := (now - tzOffset * MS_PER_MINUTE)%Z).
  pose proof (Z.div_mod local 86400000 ltac:(lia)) as Hdiv.
  pose proof (Z.mod_pos_bound local 86400000 ltac:(lia)) as Hmod.
  assert (Hbounds :
    (local / 86400000 * 86400000 + tzOffset * MS_PER_MINUTE <= now
     < local / 86400000 * 86400000 + tzOffset * MS_PER_MINUTE + 86400000)%Z)
    by (unfold local in *; lia).
  split; [exact Hbounds |].
  split.
  { replace (local / 86400000 * 86400000 + tzOffset * MS_PER_MINUTE
             - tzOffset * MS_PER_MINUTE)%Z
      with (local / 86400000 * 86400000)%Z by lia.
    apply Z.mod_mul. lia. }
  split.
  { replace (local / 86400000 * 86400000 + tzOffset * MS_PER_MINUTE
             - tzOffset * MS_PER_MINUTE)%Z
      with (local / 86400000 * 86400000)%Z by lia.
    rewrite Z.div_mul by lia. reflexivity. }
  intros log Hcounted Hpast. unfold counted_today in Hcounted.
  apply andb_true_iff in Hcounted. destruct Hcounted as [Hafter _].
  apply Z.gtb_lt in Hafter. lia.
Qed.

Lemma start_of_local_day_is_todays_midnight_witness :
  (1705708800000 <= sample_now < 1705708800000 + MS_PER_DAY)%Z
  /\ (now_minus_day_before (snd (success_at 0 1705708860000))).
Proof.
  destruct (start_of_local_day_is_todays_midnight 0 sample_now)
    as (Hbounds & _ & _ & Hrecent).
  split; [exact Hbounds |].
  apply Hrecent; [reflexivity | unfold sample_now; simpl; lia].
Defined.

Lemma failed_authentication_shows_as_system_error_witness :
  performAuthentication
    (Fulfilled
       (mkResponse 401
          (AuthenticationFailedBody "Authentication failed" (70 # 100))))
  = error_screen (mkError None "API request failed").
Proof.
  destruct (failed_authentication_shows_as_system_error sample_env
              probe_request near_miss) as (response & Hout & Hfailed & _).
  injection Hout as <-. apply Hfailed. reflexivity.
Defined.

Lemma interleaving_keeps_the_audit_trail_witness :
  keys_in_order
    (voters
       (snd (interleave sample_env alternating racing_registrations
               empty_world))).
Proof.
  apply (interleaving_keeps_the_audit_trail sample_env alternating
           racing_registrations empty_world).
  constructor.
Defined.
